(** * Gemini proxy (server.js): request transformation pipeline

    A shallow embedding of [src/server.js]: the credential extractor
    ([extractApiKey]), the version negotiator ([needsVersionDowngrade] and
    the version block of the handler), the body compatibility transformer
    ([removeUnsupportedFields], [makeBodyCompatible]) and the route handler
    with its try/catch around the outbound call.

    JavaScript objects are mutable and shared, so request bodies live in an
    explicit store: a [value] is a primitive or a reference into a [heap]
    of objects and arrays.  [JSON.parse] allocates fresh cells,
    [delete obj[field]] overwrites a cell in place. *)

From Stdlib Require Import PrimFloat ZArith Ascii String DecimalString Lia.
From stdpp Require Import base list strings.

Local Open Scope list_scope.
Local Open Scope stdpp_scope.

(* ====================================================================== *)
(** ** Results of fallible code *)

(** The one exception the modelled code can raise by itself. *)
Inductive exn := TypeError.

(** [Ok a]: normal completion; [Throw e]: a JavaScript exception escapes;
    [Stuck]: the model cannot go on (recursion fuel used up, or a reference
    that points outside the store). *)
Inductive result (A : Type) : Type :=
| Ok (a : A)
| Throw (e : exn)
| Stuck.
Arguments Ok {A} a.
Arguments Throw {A} e.
Arguments Stuck {A}.

Definition bind {A B} (r : result A) (k : A -> result B) : result B :=
  match r with
  | Ok a => k a
  | Throw e => Throw e
  | Stuck => Stuck
  end.

Notation "'let*' x := r 'in' k" := (bind r (fun x => k))
  (at level 10, x pattern, r at level 100, k at level 200).

(* ====================================================================== *)
(** ** Strings

    Header values reach the handler as latin-1 strings, one character per
    byte, which is what [string] is.  The helpers below are the
    [String.prototype] methods the source calls. *)

Module Str.

Definition is_empty (s : string) : bool :=
  match s with EmptyString => true | String _ _ => false end.

(** [s.startsWith(p)] *)
Definition startsWith (s p : string) : bool := String.prefix p s.

(** [s.includes(c)] for a one-character needle *)
Fixpoint includes (s : string) (c : ascii) : bool :=
  match s with
  | EmptyString => false
  | String a s' => Ascii.eqb a c || includes s' c
  end.

(** White space as [\s] and [trim] see it, for character codes below 256:
    TAB, LF, VT, FF, CR, SPACE and NBSP. *)
Definition is_ws (c : ascii) : bool :=
  let n := nat_of_ascii c in
  ((9 <=? n)%nat && (n <=? 13)%nat) || (n =? 32)%nat || (n =? 160)%nat.

(** Line terminators, which [.] does not match: LF and CR. *)
Definition is_line_terminator (c : ascii) : bool :=
  let n := nat_of_ascii c in (n =? 10)%nat || (n =? 13)%nat.

Fixpoint all (p : ascii -> bool) (s : string) : bool :=
  match s with
  | EmptyString => true
  | String a s' => p a && all p s'
  end.

Fixpoint trimStart (s : string) : string :=
  match s with
  | EmptyString => EmptyString
  | String a s' => if is_ws a then trimStart s' else s
  end.

Fixpoint trimEnd (s : string) : string :=
  match s with
  | EmptyString => EmptyString
  | String a s' =>
      let t := trimEnd s' in
      if is_ws a && is_empty t then EmptyString else String a t
  end.

(** [s.trim()] *)
Definition trim (s : string) : string := trimEnd (trimStart s).

Definition lower (c : ascii) : ascii :=
  let n := nat_of_ascii c in
  if (65 <=? n)%nat && (n <=? 90)%nat then ascii_of_nat (n + 32) else c.

(** [s.toLowerCase()] on the ASCII letters *)
Fixpoint toLowerCase (s : string) : string :=
  match s with
  | EmptyString => EmptyString
  | String a s' => String (lower a) (toLowerCase s')
  end.

(** Case-insensitive match of the literal [p] (given in lower case) at the
    start of [s]; the rest of [s] on success. *)
Fixpoint strip_prefix_ci (p s : string) : option string :=
  match p, s with
  | EmptyString, _ => Some s
  | String a p', String b s' =>
      if Ascii.eqb a (lower b) then strip_prefix_ci p' s' else None
  | String _ _, EmptyString => None
  end.

End Str.

Arguments Str.is_ws : simpl never.
Arguments Str.is_line_terminator : simpl never.
Arguments Str.lower : simpl never.

(** [(.+)$]: at least one character, none a line terminator, up to the end
    of the input; the group captures all of it. *)
Definition dot_plus_end (s : string) : option string :=
  if negb (Str.is_empty s) && Str.all (fun c => negb (Str.is_line_terminator c)) s
  then Some s else None.

(** [\s+(.+)$] as the backtracking matcher runs it: [\s+] is greedy, so one
    more white-space character is tried first, and the rest of the pattern
    only when that fails. *)
Fixpoint ws_plus_rest (s : string) : option string :=
  match s with
  | EmptyString => None
  | String a s' =>
      if Str.is_ws a then
        match ws_plus_rest s' with
        | Some g => Some g
        | None => dot_plus_end s'
        end
      else None
  end.

(** [auth.match(/^Bearer\s+(.+)$/i)]: [Some g] is a match with [match[1] = g]. *)
Definition bearer_match (auth : string) : option string :=
  match Str.strip_prefix_ci "bearer" auth with
  | Some rest => ws_plus_rest rest
  | None => None
  end.

(* ====================================================================== *)
(** ** Requests *)

(** A parsed query parameter: a string, or an array when the parameter is
    repeated ([?key=a&key=b]).  (A nested object, where the query parser
    builds one, is truthy and not a string, like an array.) *)
Inductive qvalue :=
| QStr (s : string)
| QArr (l : list string).

(** Truthiness of a query value or key: only the empty string is falsy. *)
Definition qtruthy (q : qvalue) : bool :=
  match q with
  | QStr s => negb (Str.is_empty s)
  | QArr _ => true
  end.

(** Property read [o[k]] on an object used as a string-keyed table; [None]
    is [undefined]. *)
Fixpoint assoc {A} (k : string) (o : list (string * A)) : option A :=
  match o with
  | [] => None
  | (k', a) :: o' => if String.eqb k' k then Some a else assoc k o'
  end.

(** [delete o[k]] *)
Definition remove_key {A} (k : string) (o : list (string * A)) : list (string * A) :=
  List.filter (fun p => negb (String.eqb p.1 k)) o.

(** [o[k] = a]: overwrite in place, or append a new property. *)
Fixpoint assign {A} (k : string) (a : A) (o : list (string * A)) : list (string * A) :=
  match o with
  | [] => [(k, a)]
  | (k', a') :: o' => if String.eqb k' k then (k', a) :: o' else (k', a') :: assign k a o'
  end.

(* ====================================================================== *)
(** ** JavaScript values in a store *)

Abbreviation loc := nat (only parsing).

(** A value a parsed body is made of.  [undefined] is not one of them: where
    the source can see [undefined] (no body, a missing property) the model
    uses [option value]. *)
Inductive value :=
| VNull
| VBool (b : bool)
| VNum (n : float)
| VStr (s : string)
| VRef (l : loc).

(** A plain object keeps its properties in enumeration order, one per name;
    an array keeps its elements. *)
Inductive cell :=
| Obj (props : list (string * value))
| Arr (items : list value).

(** The store: a reference is an index into it. *)
Abbreviation heap := (list cell) (only parsing).

(** Truthiness, as [if (x)] and [!x] decide it. *)
Definition truthy (v : value) : bool :=
  match v with
  | VNull => false
  | VBool b => b
  | VNum n => negb (is_zero n) && negb (is_nan n)
  | VStr s => negb (Str.is_empty s)
  | VRef _ => true
  end.

Definition truthy_opt (o : option value) : bool :=
  match o with
  | Some v => truthy v
  | None => false
  end.

(** [typeof v === 'object'] for a truthy [v] (null is ruled out before). *)
Definition is_object (v : value) : bool :=
  match v with VRef _ => true | _ => false end.

(** Property read [v[k]] (or [v.k]) for the names the source reads:
    [systemInstruction], [tool_config], [tool_calls], [contents], [parts].
    None of them is on a prototype, so arrays and primitives answer
    [undefined]; reading a property of [null] throws. *)
Definition get (h : heap) (v : value) (k : string) : result (option value) :=
  match v with
  | VNull => Throw TypeError
  | VRef l =>
      match h !! l with
      | Some (Obj props) => Ok (assoc k props)
      | Some (Arr _) => Ok None
      | None => Stuck
      end
  | VBool _ | VNum _ | VStr _ => Ok None
  end.

(** [x && Array.isArray(x)]: the elements when [x] is an array. *)
Definition as_array (h : heap) (x : option value) : option (list value) :=
  match x with
  | Some (VRef l) =>
      match h !! l with
      | Some (Arr items) => Some items
      | _ => None
      end
  | _ => None
  end.

(* ====================================================================== *)
(** ** JSON trees

    What a JSON text denotes once parsed: [JSON.stringify] reads such a tree
    out of the store and [JSON.parse] lays one out in fresh cells.  Object
    members are kept in enumeration order. *)

#[local] Unset Elimination Schemes.
Inductive json :=
| JNull
| JBool (b : bool)
| JNum (n : float)
| JStr (s : string)
| JArr (elems : list json)
| JObj (members : list (string * json)).
#[local] Set Elimination Schemes.

(** Nesting depth, the recursion fuel a traversal of the tree needs. *)
Fixpoint jdepth (j : json) : nat :=
  S (match j with
     | JArr js => list_max (map jdepth js)
     | JObj ms => list_max (map (fun m => jdepth m.2) ms)
     | _ => 0
     end).

(** The tree [JSON.stringify] prints for a number: [null] for NaN and the
    infinities, and [0] for negative zero. *)
Definition number_json (n : float) : json :=
  if is_finite n then JNum (if is_zero n then 0%float else n) else JNull.

(** Monadic map, left to right. *)
Fixpoint mapM {A B} (f : A -> result B) (xs : list A) : result (list B) :=
  match xs with
  | [] => Ok []
  | x :: xs' => let* y := f x in let* ys := mapM f xs' in Ok (y :: ys)
  end.

(** [JSON.stringify(v)], up to the printing of the tree as text. *)
Fixpoint stringify (fuel : nat) (h : heap) (v : value) : result json :=
  match fuel with
  | 0 => Stuck
  | S fuel' =>
      match v with
      | VNull => Ok JNull
      | VBool b => Ok (JBool b)
      | VNum n => Ok (number_json n)
      | VStr s => Ok (JStr s)
      | VRef l =>
          match h !! l with
          | Some (Arr items) =>
              let* js := mapM (stringify fuel' h) items in Ok (JArr js)
          | Some (Obj props) =>
              let* ms := mapM (fun p => let* j := stringify fuel' h p.2 in
                                        Ok (p.1, j)) props in
              Ok (JObj ms)
          | None => Stuck
          end
      end
  end.

(** Thread the store through a list, left to right. *)
Definition mapS {A B} (f : A -> heap -> B * heap) : list A -> heap -> list B * heap :=
  fix go xs h :=
    match xs with
    | [] => ([], h)
    | x :: xs' =>
        let '(y, h1) := f x h in
        let '(ys, h2) := go xs' h1 in
        (y :: ys, h2)
    end.

(** [JSON.parse] of the text of a tree: every array and object is a new
    cell, allocated after the cells of its children. *)
Fixpoint parse (j : json) (h : heap) : value * heap :=
  match j with
  | JNull => (VNull, h)
  | JBool b => (VBool b, h)
  | JNum n => (VNum n, h)
  | JStr s => (VStr s, h)
  | JArr js =>
      let '(items, h1) := mapS parse js h in
      (VRef (length h1), h1 ++ [Arr items])
  | JObj ms =>
      let '(props, h1) :=
        mapS (fun m h => let '(v, h') := parse m.2 h in ((m.1, v), h')) ms h in
      (VRef (length h1), h1 ++ [Obj props])
  end.

(* ====================================================================== *)
(** ** Body compatibility transformer *)

Inductive version := V1 | V1beta.

Definition version_str (v : version) : string :=
  match v with V1 => "v1" | V1beta => "v1beta" end.

Definition unsupportedFields : list string :=
  ["systemInstruction"; "tool_config"; "tool_calls"].

(** [xs.forEach(x => f(x))] for an [f] that updates the store. *)
Fixpoint forEach {A} (f : A -> heap -> result heap) (xs : list A) (h : heap)
  : result heap :=
  match xs with
  | [] => Ok h
  | x :: xs' => let* h' := f x h in forEach f xs' h'
  end.

(** [fields.forEach(field => { if (field in obj) delete obj[field]; })] on
    the property list of [obj]. *)
Definition delete_fields (fields : list string) (props : list (string * value))
  : list (string * value) :=
  fold_left (fun ps field => remove_key field ps) fields props.

(** [removeUnsupportedFields(obj, fields)].  An array is only walked: the
    function never writes to an array cell, so reading its elements once is
    what [forEach] sees.  An object first loses the fields, in place, then
    the snapshot [Object.values(obj)] is walked. *)
Fixpoint removeUnsupportedFields (fuel : nat) (obj : value) (fields : list string)
    (h : heap) : result heap :=
  match fuel with
  | 0 => Stuck
  | S fuel' =>
      match obj with
      | VRef l =>
          match h !! l with
          | Some (Arr items) =>
              forEach (fun item => removeUnsupportedFields fuel' item fields) items h
          | Some (Obj props) =>
              let props' := delete_fields fields props in
              forEach (fun v => removeUnsupportedFields fuel' v fields)
                      (map snd props') (<[l := Obj props']> h)
          | None => Stuck
          end
      | VNull | VBool _ | VNum _ | VStr _ => Ok h
      end
  end.

(** [makeBodyCompatible(body, targetVersion)]: the returned body and the
    store after the call. *)
Definition makeBodyCompatible (fuel : nat) (h : heap) (body : option value)
    (targetVersion : version) : result (option value * heap) :=
  match body, targetVersion with
  | Some b, V1 =>
      if truthy b then
        let* j := stringify fuel h b in
        let '(newBody, h1) := parse j h in
        let* h2 := removeUnsupportedFields fuel newBody unsupportedFields h1 in
        Ok (Some newBody, h2)
      else Ok (body, h)
  | _, _ => Ok (body, h)
  end.

(* ====================================================================== *)
(** ** Version negotiator *)

Definition unsupportedInV1 : list string :=
  ["systemInstruction"; "tool_config"; "tool_calls"].

(** [for (const param of params) { if (o[param]) return true; }] *)
Fixpoint any_param (h : heap) (o : value) (params : list string) : result bool :=
  match params with
  | [] => Ok false
  | param :: rest =>
      let* x := get h o param in
      if truthy_opt x then Ok true else any_param h o rest
  end.

(** The loop over [content.parts]. *)
Fixpoint any_part (h : heap) (parts : list value) : result bool :=
  match parts with
  | [] => Ok false
  | part :: rest =>
      let* found := any_param h part unsupportedInV1 in
      if found then Ok true else any_part h rest
  end.

(** The loop over [body.contents]. *)
Fixpoint any_content (h : heap) (contents : list value) : result bool :=
  match contents with
  | [] => Ok false
  | content :: rest =>
      let* parts := get h content "parts" in
      let* found := match as_array h parts with
              | Some ps => any_part h ps
              | None => Ok false
              end in
      if found then Ok true else any_content h rest
  end.

(** [needsVersionDowngrade(body)] *)
Definition needsVersionDowngrade (h : heap) (body : option value) : result bool :=
  match body with
  | None => Ok false
  | Some b =>
      if negb (truthy b) || negb (is_object b) then Ok false
      else
        let* root := any_param h b unsupportedInV1 in
        if root then Ok true
        else
          let* contents := get h b "contents" in
          match as_array h contents with
          | Some cs => any_content h cs
          | None => Ok false
          end
  end.

(* ====================================================================== *)
(** ** Credential extractor *)

(** The inbound request as the handler reads it.  Header names arrive in
    lower case; [body] is [None] when no body was parsed ([undefined]). *)
Record request := Request {
  method : string;
  path : string;
  query : list (string * qvalue);
  headers : list (string * string);
  body : option value
}.

Definition queryKeys : list string :=
  ["key"; "api_key"; "apikey"; "token"; "access_token"].

(** A header value that passes [if (x)]: present and not empty. *)
Definition nonempty (o : option string) : option string :=
  match o with
  | Some s => if Str.is_empty s then None else Some s
  | None => None
  end.

(** [for (const key of queryKeys) { if (req.query[key]) return req.query[key]; }] *)
Fixpoint first_query_key (q : list (string * qvalue)) (keys : list string)
  : option qvalue :=
  match keys with
  | [] => None
  | key :: rest =>
      match assoc key q with
      | Some v => if qtruthy v then Some v else first_query_key q rest
      | None => first_query_key q rest
      end
  end.

(** [extractApiKey(req)]; [None] is the [null] of the last line. *)
Definition extractApiKey (req : request) : option qvalue :=
  match nonempty (assoc "x-goog-api-key" (headers req)) with
  | Some k => Some (QStr k)
  | None =>
      match nonempty (assoc "authorization" (headers req)) with
      | Some auth =>
          match bearer_match auth with
          | Some g => Some (QStr (Str.trim g))
          | None =>
              if negb (Str.includes auth " ") then Some (QStr (Str.trim auth))
              else first_query_key (query req) queryKeys
          end
      | None => first_query_key (query req) queryKeys
      end
  end.

(** [!!apiKey] *)
Definition key_found (apiKey : option qvalue) : bool :=
  match apiKey with
  | Some k => qtruthy k
  | None => false
  end.

(* ====================================================================== *)
(** ** The response object *)

Inductive payload :=
| NoBody
| Json (j : json)
| Piped (chunks : list string).

(** The part of Express's [res] the handler touches. *)
Record response := Response {
  headersSent : bool;
  statusCode : Z;
  resHeaders : list (string * string);
  sent : payload
}.

(** [res.status(code)] *)
Definition status (code : Z) (rs : response) : response :=
  Response (headersSent rs) code (resHeaders rs) (sent rs).

(** [res.setHeader(name, value)] / [res.header(name, value)] *)
Definition setHeader (name v : string) (rs : response) : response :=
  Response (headersSent rs) (statusCode rs) (assign name v (resHeaders rs)) (sent rs).

(** [res.end()] *)
Definition end_ (rs : response) : response :=
  Response true (statusCode rs) (resHeaders rs) NoBody.

(** [res.json(j)] *)
Definition json_ (j : json) (rs : response) : response :=
  Response true (statusCode rs) (resHeaders rs) (Json j).

(** [upstream.pipe(res)], with the chunks the upstream delivers. *)
Definition pipe (chunks : list string) (rs : response) : response :=
  Response true (statusCode rs) (resHeaders rs) (Piped chunks).

Definition error_body (code : float) (message status_ : string) : json :=
  JObj [("error", JObj [("code", JNum code);
                        ("message", JStr message);
                        ("status", JStr status_)])].

Definition unauthenticated : json :=
  error_body 401 "API key not found" "UNAUTHENTICATED".

Definition bad_gateway (reason : string) : json :=
  error_body 502 ("Failed to connect to Google Gemini API: " +:+ reason) "BAD_GATEWAY".

Definition debug_body (method_ path_ : string) (found : bool) (server_info : json) : json :=
  JObj [("debug", JBool true);
        ("method", JStr method_);
        ("path", JStr path_);
        ("api_key_found", JBool found);
        ("server_info", server_info)].

(* ====================================================================== *)
(** ** CORS middleware

    The headers every response starts with.  The [finish] hook, which
    measures the handling time, is left out. *)

Definition cors_headers (requestId : string) (rs : response) : response :=
  setHeader "X-Request-ID" requestId
    (setHeader "Access-Control-Max-Age" "86400"
      (setHeader "Access-Control-Allow-Headers"
         "Content-Type, Authorization, X-API-Key, X-Requested-With, User-Agent, Accept, Origin, Cache-Control, X-Request-ID, X-Goog-Api-Key, X-Session-Token, X-Client-Version, X-Device-Id"
        (setHeader "Access-Control-Allow-Methods"
           "GET, POST, PUT, PATCH, DELETE, OPTIONS, HEAD"
          (setHeader "Access-Control-Allow-Origin" "*" rs)))).

(* ====================================================================== *)
(** ** Route handler *)

Definition UPSTREAM_HOST : string := "https://generativelanguage.googleapis.com".
Definition DEFAULT_API_VERSION : version := V1beta.

(** The outbound URL, kept in parts: [URLSearchParams] does the encoding of
    [u_query], which always holds [key] and so is never empty. *)
Record target_url := TargetUrl {
  u_host : string;
  u_path : string;
  u_query : list (string * qvalue)
}.

(** The argument of the [axios(...)] call. *)
Record axios_config := AxiosConfig {
  ax_method : string;
  ax_url : target_url;
  ax_headers : list (string * string);
  ax_data : option value
}.

(** How the synchronous part of the handler ends: the response is finished
    locally, or the outbound call is issued. *)
Inductive action :=
| Finish (rs : response)
| CallAxios (cfg : axios_config).

(** [req.query.debug === 'true' || req.headers['http-debug'] === 'true'] *)
Definition debug_requested (req : request) : bool :=
  match assoc "debug" (query req) with
  | Some (QStr s) => String.eqb s "true"
  | _ => false
  end
  ||
  match assoc "http-debug" (headers req) with
  | Some s => String.eqb s "true"
  | None => false
  end.

(** [path.match(/^\/(v1|v1beta)\//)]: the captured version. *)
Definition versionMatch (path_ : string) : option version :=
  if Str.startsWith path_ "/v1/" then Some V1
  else if Str.startsWith path_ "/v1beta/" then Some V1beta
  else None.

(** The version block of the handler: the value of [targetVersion] after it. *)
Definition targetVersion (h : heap) (path_ : string) (body_ : option value)
  : result version :=
  match versionMatch path_ with
  | Some v => Ok v
  | None =>
      let* downgrade := needsVersionDowngrade h body_ in
      Ok (if downgrade then V1beta else DEFAULT_API_VERSION)
  end.

(** The value of [targetPath]. *)
Definition targetPath (v : version) (path_ : string) : string :=
  if negb (Str.startsWith path_ ("/" +:+ version_str v +:+ "/"))
     && negb (Str.startsWith path_ "/v1/")
     && negb (Str.startsWith path_ "/v1beta/")
  then "/" +:+ version_str v +:+ (if Str.startsWith path_ "/" then "" else "/") +:+ path_
  else path_.

(** The value of [queryParams] when the URL is built. *)
Definition queryParams (q : list (string * qvalue)) (apiKey : qvalue)
  : list (string * qvalue) :=
  assign "key" apiKey
    (fold_left (fun o k => remove_key k o)
       ["key"; "api_key"; "apikey"; "token"; "access_token"; "debug"] q).

Definition skipHeaders : list string :=
  ["host"; "connection"; "content-length"; "x-goog-api-key"; "authorization";
   "x-api-key"; "api-key"; "accept-encoding"].

(** [list.includes(s)] *)
Definition includes (l : list string) (s : string) : bool :=
  existsb (String.eqb s) l.

(** [o[k] = v] on a plain object literal, for a string [v]: the name
    [__proto__] reaches the prototype setter, which ignores a string, so no
    property is made; any other name is assigned. *)
Definition set_property (k v : string) (o : list (string * string))
  : list (string * string) :=
  if String.eqb k "__proto__" then o else assign k v o.

(** The value of [upstreamHeaders] at the call. *)
Definition upstreamHeaders (hs : list (string * string)) : list (string * string) :=
  fold_left
    (fun up kv => if negb (includes skipHeaders (Str.toLowerCase kv.1))
                  then set_property kv.1 kv.2 up else up)
    hs
    [("Content-Type", "application/json");
     ("User-Agent", "Gemini-API-Proxy/Node-No-Limits")].

(** The handler of [app.all], up to the [axios] call.  [server_info] is the
    process data the debug route reports; [rs] is the response object as the
    middleware left it. *)
Definition handler (fuel : nat) (server_info : json) (req : request)
    (rs : response) (h : heap) : result (action * heap) :=
  if String.eqb (path req) "/favicon.ico" then Ok (Finish (end_ (status 404 rs)), h)
  else
    let apiKey := extractApiKey req in
    if debug_requested req then
      Ok (Finish (json_ (debug_body (method req) (path req) (key_found apiKey)
                                    server_info) rs), h)
    else
      match apiKey with
      | Some k =>
          if qtruthy k then
            let* v := targetVersion h (path req) (body req) in
            let* (compatibleBody, h') := makeBodyCompatible fuel h (body req) v in
            Ok (CallAxios
                  {| ax_method := method req;
                     ax_url := TargetUrl UPSTREAM_HOST (targetPath v (path req))
                                         (queryParams (query req) k);
                     ax_headers := upstreamHeaders (headers req);
                     ax_data := if includes ["POST"; "PUT"; "PATCH"] (method req)
                                then compatibleBody else None |}, h')
          else Ok (Finish (json_ unauthenticated (status 401 rs)), h)
      | None => Ok (Finish (json_ unauthenticated (status 401 rs)), h)
      end.

(* ====================================================================== *)
(** ** After the outbound call: the rest of [try] and the [catch] *)

(** What [await axios(...)] gives: a response of any status, with its body
    as the chunks of the stream, or a rejection with [error.message]. *)
Inductive axios_outcome :=
| Resolved (code : Z) (hs : list (string * string)) (data : list string)
| Rejected (message : string).

Definition safeHeaders : list string :=
  ["content-type"; "content-encoding"; "cache-control"; "expires";
   "last-modified"; "etag"; "vary"; "x-goog-generation"; "x-goog-metageneration"].

(** The [catch] block (logging apart). *)
Definition catch (message : string) (rs : response) : response :=
  if negb (headersSent rs) then json_ (bad_gateway message) (status 502 rs)
  else rs.

(** [res.status(code)] accepts the integers from 100 to 999 and throws a
    [RangeError] with this message for any other (Express 5). *)
Definition valid_status (code : Z) : bool :=
  (100 <=? code)%Z && (code <=? 999)%Z.

Definition invalid_status_message (code : Z) : string :=
  "Invalid status code: " +:+ NilZero.string_of_int (Z.to_int code)
  +:+ ". Status code must be greater than 99 and less than 1000.".

(** The body of [try] after the [await].  [res.setHeader] throws once the
    headers are out, and [res.status] throws on a status it does not
    accept, after the headers have been copied; both land in [catch].
    ([resHeaders] holds the headers the source sets; what Express adds or
    adjusts by itself when it sends a body is not recorded.) *)
Definition relay (out : axios_outcome) (proxyRequestId : string) (rs : response)
  : response :=
  match out with
  | Rejected message => catch message rs
  | Resolved code hs data =>
      if headersSent rs
      then catch "Cannot set headers after they are sent to the client" rs
      else
        let rs1 :=
          fold_left
            (fun r kv =>
               if includes safeHeaders (Str.toLowerCase kv.1)
                  || Str.startsWith kv.1 "x-goog-"
               then setHeader kv.1 kv.2 r else r)
            hs rs in
        let rs2 := setHeader "X-Proxy-Request-ID" proxyRequestId rs1 in
        if valid_status code then pipe data (status code rs2)
        else catch (invalid_status_message code) rs2
  end.

(** One request through the application: the middleware (preflight
    requests end there), the handler, and the relay of what [upstream]
    answers to the outbound call.  [requestId] and [proxyRequestId] are the
    two identifiers [uuidv4()] draws. *)
Definition app (fuel : nat) (server_info : json) (requestId proxyRequestId : string)
    (upstream : axios_config -> axios_outcome) (req : request) (h : heap)
  : result (response * heap) :=
  let rs := cors_headers requestId (Response false 200 [] NoBody) in
  if String.eqb (method req) "OPTIONS" then Ok (end_ (status 204 rs), h)
  else
    let* (a, h') := handler fuel server_info req rs h in
    match a with
    | Finish r => Ok (r, h')
    | CallAxios cfg => Ok (relay (upstream cfg) proxyRequestId rs, h')
    end.

(* ====================================================================== *)
(** ** Specification side: trees, stripping, and how a store holds a tree *)

(** Some object of the tree, at any depth, has a member named in [fields]. *)
Fixpoint mentions (fields : list string) (j : json) : bool :=
  match j with
  | JArr js => existsb (mentions fields) js
  | JObj ms => existsb (fun m => includes fields m.1 || mentions fields m.2) ms
  | _ => false
  end.

(** The tree without any member named in [fields], at every depth: the
    stripping as the specification words it, on trees. *)
Fixpoint strip (fields : list string) (j : json) : json :=
  match j with
  | JArr js => JArr (map (strip fields) js)
  | JObj ms =>
      JObj (List.filter (fun m => negb (includes fields m.1))
                        (map (fun m => (m.1, strip fields m.2)) ms))
  | _ => j
  end.

(** The tree [JSON.stringify] prints for a tree held in the store: numbers
    go through [number_json]. *)
Fixpoint printed (j : json) : json :=
  match j with
  | JNum n => number_json n
  | JArr js => JArr (map printed js)
  | JObj ms => JObj (map (fun m => (m.1, printed m.2)) ms)
  | _ => j
  end.

(** [repr h v j]: in the store [h], the value [v] is the JSON value [j].
    Cells may be shared between sub-values. *)
#[local] Unset Elimination Schemes.
Inductive repr (h : heap) : value -> json -> Prop :=
| repr_null : repr h VNull JNull
| repr_bool b : repr h (VBool b) (JBool b)
| repr_num n : repr h (VNum n) (JNum n)
| repr_str s : repr h (VStr s) (JStr s)
| repr_arr l items js :
    h !! l = Some (Arr items) ->
    Forall2 (repr h) items js ->
    repr h (VRef l) (JArr js)
| repr_obj l props ms :
    h !! l = Some (Obj props) ->
    map fst props = map fst ms ->
    Forall2 (repr h) (map snd props) (map snd ms) ->
    repr h (VRef l) (JObj ms).
#[local] Set Elimination Schemes.

(** [chain R xs ys lo hi]: the elements of [xs] and [ys] are related by [R]
    on consecutive sub-intervals of [lo, hi). *)
Inductive chain {A B} (R : A -> B -> nat -> nat -> Prop)
  : list A -> list B -> nat -> nat -> Prop :=
| chain_nil lo hi : lo <= hi -> chain R [] [] lo hi
| chain_cons a b xs ys lo mid hi :
    lo <= mid -> R a b lo mid -> chain R xs ys mid hi ->
    chain R (a :: xs) (b :: ys) lo hi.

(** [tree h v j lo hi]: [v] is [j] in [h] and owns its cells, all of them in
    [lo, hi): no cell is reached twice, children sit below their parent. *)
#[local] Unset Elimination Schemes.
Inductive tree (h : heap) : value -> json -> nat -> nat -> Prop :=
| tree_null lo hi : lo <= hi -> tree h VNull JNull lo hi
| tree_bool b lo hi : lo <= hi -> tree h (VBool b) (JBool b) lo hi
| tree_num n lo hi : lo <= hi -> tree h (VNum n) (JNum n) lo hi
| tree_str s lo hi : lo <= hi -> tree h (VStr s) (JStr s) lo hi
| tree_arr l items js lo hi :
    h !! l = Some (Arr items) ->
    chain (tree h) items js lo l ->
    l < hi ->
    tree h (VRef l) (JArr js) lo hi
| tree_obj l props ms lo hi :
    h !! l = Some (Obj props) ->
    map fst props = map fst ms ->
    chain (tree h) (map snd props) (map snd ms) lo l ->
    l < hi ->
    tree h (VRef l) (JObj ms) lo hi.
#[local] Set Elimination Schemes.

(** The stores agree outside [lo, hi) and have the same size. *)
Definition agree_outside (lo hi : nat) (h h' : heap) : Prop :=
  length h' = length h /\ forall l, ~ (lo <= l < hi) -> h' !! l = h !! l.

(** Every cell of [h] is the same cell in [h']. *)
Definition preserved (h h' : heap) : Prop :=
  forall l c, h !! l = Some c -> h' !! l = Some c.

(** [JSON.parse] of [j] only appends cells, and they form an owned tree. *)
Definition parses_fresh (j : json) : Prop :=
  forall h, exists v new,
    parse j h = (v, h ++ new) /\
    tree (h ++ new) v j (length h) (length (h ++ new)).

(** [removeUnsupportedFields] on an owned tree of [j]: with fuel for the
    depth of [j] it returns, writes inside the tree's interval only, and
    leaves the owned tree of [strip fields j]. *)
Definition strips (fields : list string) (j : json) : Prop :=
  forall fuel h v lo hi,
    tree h v j lo hi -> jdepth j <= fuel ->
    exists h',
      removeUnsupportedFields fuel v fields h = Ok h' /\
      agree_outside lo hi h h' /\
      tree h' v (strip fields j) lo hi.

(* ====================================================================== *)
(** ** Sample bodies and requests *)

Module Samples.

(** A response object nothing has been written to. *)
Definition fresh : response := Response false 200 [] NoBody.

(** [{"contents":[null]}] *)
Definition null_content : json := JObj [("contents", JArr [JNull])].

(** [{"contents":[{"parts":[null,null,{"functionCall":{"tool_calls":[true]}}]}]}] *)
Definition deep_tool_calls : json :=
  JObj [("contents",
         JArr [JObj [("parts",
                      JArr [JNull; JNull;
                            JObj [("functionCall",
                                   JObj [("tool_calls", JArr [JBool true])])]])]])].

(** [{"tool_calls":[{"name":"f"}],
      "contents":[{"parts":[{"text":"hi","tool_config":{}}]}]}] *)
Definition with_tools : json :=
  JObj [("tool_calls", JArr [JObj [("name", JStr "f")]]);
        ("contents",
         JArr [JObj [("parts",
                      JArr [JObj [("text", JStr "hi");
                                  ("tool_config", JObj [])]])]])].

(** The body as [express.json] hands it over: parsed into an empty store. *)
Definition body_of (j : json) : value := (parse j []).1.
Definition store_of (j : json) : heap := (parse j []).2.

(** [POST p] with the vendor key header and the JSON body [j]. *)
Definition post (p : string) (j : json) : request :=
  Request "POST" p [] [("x-goog-api-key", "XYZ")] (Some (body_of j)).

(** [GET /models?debug=true], without any key. *)
Definition debug_no_key : request :=
  Request "GET" "/models" [("debug", QStr "true")] [] None.

(** [GET /models], without any key. *)
Definition no_key : request := Request "GET" "/models" [] [] None.

(** [GET /models?key=abc] with an empty [Authorization] header. *)
Definition empty_authorization : request :=
  Request "GET" "/models" [("key", QStr "abc")] [("authorization", "")] None.

(** [Authorization: bearer   abc ] *)
Definition bearer_abc : request :=
  Request "GET" "/models" [] [("authorization", "bearer   abc ")] None.

(** [Authorization: tok123] *)
Definition bare_token : request :=
  Request "GET" "/models" [] [("authorization", "tok123")] None.

(** [Authorization: Basic abc], and no key in the query *)
Definition basic_auth : request :=
  Request "GET" "/models" [("alt", QStr "sse")] [("authorization", "Basic abc")] None.

End Samples.

(* ====================================================================== *)
(** ** Specification side: feature detection on trees, and shrinking stores *)

(** Truthiness of the value a tree stands for. *)
Definition jtruthy (j : json) : bool :=
  match j with
  | JNull => false
  | JBool b => b
  | JNum n => negb (is_zero n) && negb (is_nan n)
  | JStr s => negb (Str.is_empty s)
  | JArr _ | JObj _ => true
  end.

(** The member [k] of an object; nothing for any other tree. *)
Definition member (j : json) (k : string) : option json :=
  match j with
  | JObj ms => assoc k ms
  | _ => None
  end.

(** The elements of an array; none for anything else, or for nothing. *)
Definition elements (o : option json) : list json :=
  match o with
  | Some (JArr js) => js
  | _ => []
  end.

(** The tree has a truthy member named in [unsupportedInV1], directly. *)
Definition flagged (j : json) : bool :=
  existsb (fun param => match member j param with
                        | Some x => jtruthy x
                        | None => false
                        end) unsupportedInV1.

(** What the detection looks at: the members of the body itself and of the
    elements of every [contents[i].parts]. *)
Definition detects (j : json) : bool :=
  match j with
  | JObj _ | JArr _ =>
      flagged j
      || existsb (fun content => existsb flagged (elements (member content "parts")))
                 (elements (member j "contents"))
  | _ => false
  end.

Definition is_null (j : json) : bool :=
  match j with JNull => true | _ => false end.

(** No element of [contents], and no element of a [parts] array in it, is
    [null]. *)
Definition null_free (j : json) : bool :=
  forallb (fun content =>
             negb (is_null content)
             && forallb (fun part => negb (is_null part))
                        (elements (member content "parts")))
          (elements (member j "contents")).

(** An optional value stands for an optional tree. *)
Definition repr_opt (h : heap) (o : option value) (oj : option json) : Prop :=
  match o, oj with
  | Some v, Some j => repr h v j
  | None, None => True
  | _, _ => False
  end.

(** [c'] is the cell [c] after deletions of properties named in [fields]
    only: an array is the same array; an object has lost no property of
    another name and has gained or changed none. *)
Definition cell_shrinks (fields : list string) (c c' : cell) : Prop :=
  match c, c' with
  | Arr items, Arr items' => items' = items
  | Obj props, Obj props' =>
      (forall kv, In kv props' -> In kv props) /\
      (forall kv, In kv props -> includes fields kv.1 = false -> In kv props')
  | _, _ => False
  end.

(** The store [h'] is [h] with some object cells shrunk. *)
Definition shrinks (fields : list string) (h h' : heap) : Prop :=
  length h' = length h /\
  forall l c, h !! l = Some c -> exists c', h' !! l = Some c' /\ cell_shrinks fields c c'.

(** Copying the entries of [hs] that pass [keep] into a table, as the two
    header loops do. *)
Definition copy_into {A} (keep : string -> bool) (hs o : list (string * A))
  : list (string * A) :=
  fold_left (fun up kv => if keep kv.1 then assign kv.1 kv.2 up else up) hs o.

(** The query parameters the handler deletes before it adds [key] again. *)
Definition credentialParams : list string :=
  ["key"; "api_key"; "apikey"; "token"; "access_token"; "debug"].

(** The inbound header names that go upstream: not on the exclusion list,
    and not [__proto__]. *)
Definition forwarded (name : string) : bool :=
  negb (includes skipHeaders (Str.toLowerCase name))
  && negb (String.eqb name "__proto__").

(** The test of the relay on an upstream header name. *)
Definition relayed (name : string) : bool :=
  includes safeHeaders (Str.toLowerCase name) || Str.startsWith name "x-goog-".

(** The headers the middleware sets, request identifier apart. *)
Definition corsHeaders : list (string * string) :=
  [("Access-Control-Allow-Origin", "*");
   ("Access-Control-Allow-Methods", "GET, POST, PUT, PATCH, DELETE, OPTIONS, HEAD");
   ("Access-Control-Max-Age", "86400")].

Module MoreSamples.

(** A store with a shared object: both elements of the array at 1 are the
    object at 0. *)
Definition shared_store : heap :=
  [Obj [("tool_calls", VBool true); ("text", VStr "hi")]; Arr [VRef 0; VRef 0]].

(** [{"systemInstruction":"","contents":[{"parts":[{"text":"hi"},{"tool_config":{}}]}]}] *)
Definition flagged_part : json :=
  JObj [("systemInstruction", JStr "");
        ("contents",
         JArr [JObj [("parts",
                      JArr [JObj [("text", JStr "hi")];
                            JObj [("tool_config", JObj [])]])]])].

(** [{"contents":[{"parts":[{"text":"hi"}]}],"generationConfig":{"temperature":1}}] *)
Definition clean_body : json :=
  JObj [("contents", JArr [JObj [("parts", JArr [JObj [("text", JStr "hi")]])]]);
        ("generationConfig", JObj [("temperature", JNum 1)])].

(** Inbound headers of a browser call. *)
Definition inbound_headers : list (string * string) :=
  [("host", "proxy.example"); ("authorization", "Bearer K");
   ("content-type", "text/plain"); ("x-client", "web")].

(** [GET /models?key=&api_key=abc] *)
Definition empty_key_param : request :=
  Request "GET" "/models" [("key", QStr ""); ("api_key", QStr "abc")] [] None.

(** [GET /models?key=abc] with [Authorization: Bearer], a space and a
    no-break space. *)
Definition blank_bearer : request :=
  Request "GET" "/models" [("key", QStr "abc")]
          [("authorization", "Bearer " +:+ String (ascii_of_nat 160) "")] None.

(** [GET /v1beta/models?token=T] *)
Definition token_request : request :=
  Request "GET" "/v1beta/models" [("token", QStr "T")] [] None.

(** Upstream response headers. *)
Definition upstream_headers : list (string * string) :=
  [("content-type", "text/event-stream"); ("server", "gws");
   ("x-goog-trace", "t1"); ("access-control-allow-origin", "evil")].

End MoreSamples.

(* ====================================================================== *)
(** * Properties *)

(** ** Induction on JSON trees *)

Section json_induction.
Variable P : json -> Prop.
Hypothesis Pnull : P JNull.
Hypothesis Pbool : forall b, P (JBool b).
Hypothesis Pnum : forall n, P (JNum n).
Hypothesis Pstr : forall s, P (JStr s).
Hypothesis Parr : forall js, Forall P js -> P (JArr js).
Hypothesis Pobj : forall ms, Forall P (map snd ms) -> P (JObj ms).

Lemma json_ind : forall j, P j.
Proof.
  fix IH 1. intros [ | b | n | s | js | ms ].
  - apply Pnull.
  - apply Pbool.
  - apply Pnum.
  - apply Pstr.
  - apply Parr.
    refine ((fix elems (l : list json) : Forall P l :=
               match l with
               | [] => @List.Forall_nil _ P
               | j :: l' => @List.Forall_cons _ P j l' (IH j) (elems l')
               end) js).
  - apply Pobj.
    refine ((fix members (l : list (string * json)) : Forall P (map snd l) :=
               match l with
               | [] => @List.Forall_nil _ P
               | m :: l' =>
                   @List.Forall_cons _ P (snd m) (map snd l') (IH (snd m)) (members l')
               end) ms).
Qed.
End json_induction.

(** ** Lists *)

Lemma Forall2_Forall_impl {A B} (R R' : A -> B -> Prop) xs ys :
  Forall2 R xs ys ->
  Forall (fun y => forall x, R x y -> R' x y) ys ->
  Forall2 R' xs ys.
Proof.
  induction 1 as [ | x y xs ys Hxy _ IH ]; intros Hall; constructor;
    inversion Hall; subst; auto.
Qed.

Lemma mapM_Forall2 {A B C} (f : A -> result B) (g : C -> B) xs ys :
  Forall2 (fun x y => f x = Ok (g y)) xs ys ->
  mapM f xs = Ok (map g ys).
Proof.
  induction 1 as [ | x y xs ys Hxy _ IH ]; cbn; [ reflexivity | ].
  rewrite Hxy. cbn. rewrite IH. reflexivity.
Qed.

Lemma mapM_members (f : value -> result json) (g : json -> json) props ms :
  map fst props = map fst ms ->
  Forall2 (fun v j => f v = Ok (g j)) (map snd props) (map snd ms) ->
  mapM (fun p : string * value => let* j := f p.2 in Ok (p.1, j)) props
  = Ok (map (fun m : string * json => (m.1, g m.2)) ms).
Proof.
  revert ms. induction props as [ | [k v] props IH ]; intros [ | [k' j] ms ] Hk Hv;
    cbn in *; try discriminate; [ reflexivity | ].
  inversion Hk; subst. inversion Hv; subst.
  match goal with H : f v = _ |- _ => rewrite H end. cbn.
  rewrite (IH ms); auto.
Qed.

Lemma jdepth_pos j : 1 <= jdepth j.
Proof. destruct j; cbn; lia. Qed.

Lemma jdepth_arr js n : jdepth (JArr js) <= S n -> Forall (fun j => jdepth j <= n) js.
Proof.
  cbn. intros H.
  apply (proj1 (Forall_map jdepth (fun k => k <= n) js)), list_max_le. lia.
Qed.

Lemma jdepth_obj ms n :
  jdepth (JObj ms) <= S n -> Forall (fun j => jdepth j <= n) (map snd ms).
Proof.
  cbn. intros H.
  apply (proj2 (Forall_map snd (fun j => jdepth j <= n) ms)).
  apply (proj1 (Forall_map (fun m => jdepth m.2) (fun k => k <= n) ms)), list_max_le.
  lia.
Qed.

(** ** Reading a tree out of the store *)

Lemma repr_preserved h h' v j : preserved h h' -> repr h v j -> repr h' v j.
Proof.
  intros Hp. revert v.
  induction j as [ | b | n | s | js IH | ms IH ] using json_ind;
    intros v Hr; inversion Hr; subst; try constructor.
  - econstructor; [ apply Hp; eassumption | ].
    eapply Forall2_Forall_impl; eauto.
  - econstructor; [ apply Hp; eassumption | assumption | ].
    eapply Forall2_Forall_impl; eauto.
Qed.

Lemma stringify_repr h j : forall fuel v,
  repr h v j -> jdepth j <= fuel -> stringify fuel h v = Ok (printed j).
Proof.
  induction j as [ | b | n | s | js IH | ms IH ] using json_ind;
    intros [ | fuel ] v Hr Hd;
    try (pose proof (jdepth_pos JNull); cbn in Hd; lia);
    inversion Hr; subst; cbn [stringify printed]; try reflexivity.
  - match goal with H : h !! _ = Some _ |- _ => rewrite H end.
    apply jdepth_arr in Hd.
    rewrite (mapM_Forall2 _ printed _ js); [ reflexivity | ].
    eapply Forall2_Forall_impl; [ eassumption | ].
    rewrite Forall_forall in *. intros j Hj v Hv. apply IH; auto.
  - match goal with H : h !! _ = Some _ |- _ => rewrite H end.
    apply jdepth_obj in Hd.
    rewrite (mapM_members _ printed _ ms); [ reflexivity | assumption | ].
    eapply Forall2_Forall_impl; [ eassumption | ].
    rewrite Forall_forall in *. intros j Hj v Hv. apply IH; auto.
Qed.

(** ** Owned trees *)

Lemma chain_bounds {A B} (R : A -> B -> nat -> nat -> Prop) xs ys lo hi :
  chain R xs ys lo hi -> lo <= hi.
Proof. induction 1; lia. Qed.

Lemma tree_bounds h v j lo hi : tree h v j lo hi -> lo <= hi.
Proof.
  inversion 1; subst; try assumption;
    match goal with H : chain _ _ _ _ _ |- _ => apply chain_bounds in H end; lia.
Qed.

(** A chain is carried over to a relation that agrees on the elements of
    the chain, inside its interval. *)
Lemma chain_impl {A B} (R R' : A -> B -> nat -> nat -> Prop) xs ys lo hi :
  chain R xs ys lo hi ->
  (forall a b x y, In b ys -> lo <= x -> y <= hi -> R a b x y -> R' a b x y) ->
  chain R' xs ys lo hi.
Proof.
  induction 1 as [ lo hi Hle | a b xs ys lo mid hi Hle Hab Hc IH ]; intros Himp.
  - constructor; assumption.
  - pose proof (chain_bounds _ _ _ _ _ Hc).
    econstructor; [ eassumption | | ].
    + apply Himp; [ left; reflexivity | lia | lia | assumption ].
    + apply IH. intros a' b' x y Hin Hx Hy. apply Himp; [ right; assumption | lia | lia ].
Qed.

(** The interval of a chain can start earlier: its first element takes the
    extra room. *)
Lemma chain_widen {A B} (R : A -> B -> nat -> nat -> Prop) xs ys lo lo' hi :
  chain R xs ys lo hi ->
  (forall a b x x' y, In b ys -> x' <= x -> R a b x y -> R a b x' y) ->
  lo' <= lo ->
  chain R xs ys lo' hi.
Proof.
  destruct 1 as [ lo hi Hle | a b xs ys lo mid hi Hle Hab Hc ]; intros Hw Hlo.
  - constructor; lia.
  - econstructor; [ | | eassumption ]; [ lia | ].
    eapply Hw; [ left; reflexivity | eassumption | assumption ].
Qed.

Lemma tree_frame h h' j : forall v lo hi,
  tree h v j lo hi ->
  (forall l, lo <= l < hi -> h' !! l = h !! l) ->
  tree h' v j lo hi.
Proof.
  induction j as [ | b | n | s | js IH | ms IH ] using json_ind;
    intros v lo hi Ht Hsame; inversion Ht; subst; try (constructor; assumption).
  - match goal with H : chain _ _ _ _ _ |- _ => pose proof (chain_bounds _ _ _ _ _ H) as Hb end.
    econstructor; [ rewrite Hsame by lia; eassumption | | assumption ].
    eapply chain_impl; [ eassumption | ].
    rewrite List.Forall_forall in IH.
    intros a b x y Hin Hx Hy Hab. apply IH; auto.
    intros l' Hl'. apply Hsame. lia.
  - match goal with H : chain _ _ _ _ _ |- _ => pose proof (chain_bounds _ _ _ _ _ H) as Hb end.
    econstructor; [ rewrite Hsame by lia; eassumption | assumption | | assumption ].
    eapply chain_impl; [ eassumption | ].
    rewrite List.Forall_forall in IH.
    intros a b x y Hin Hx Hy Hab. apply IH; auto.
    intros l' Hl'. apply Hsame. lia.
Qed.

Lemma tree_widen h j : forall v lo lo' hi hi',
  tree h v j lo hi -> lo' <= lo -> hi <= hi' -> tree h v j lo' hi'.
Proof.
  induction j as [ | b | n | s | js IH | ms IH ] using json_ind;
    intros v lo lo' hi hi' Ht Hlo Hhi; inversion Ht; subst;
    try (constructor; lia).
  - econstructor; [ eassumption | | lia ].
    eapply chain_widen; [ eassumption | | assumption ].
    rewrite List.Forall_forall in IH.
    intros a b x x' y Hin Hx Hab. eapply IH; eauto.
  - econstructor; [ eassumption | assumption | | lia ].
    eapply chain_widen; [ eassumption | | assumption ].
    rewrite List.Forall_forall in IH.
    intros a b x x' y Hin Hx Hab. eapply IH; eauto.
Qed.

Lemma chain_Forall2 {A B} (R : A -> B -> nat -> nat -> Prop) (Q : A -> B -> Prop)
    xs ys lo hi :
  chain R xs ys lo hi ->
  (forall a b x y, In b ys -> R a b x y -> Q a b) ->
  Forall2 Q xs ys.
Proof.
  induction 1 as [ | a b xs ys lo mid hi Hle Hab Hc IH ]; intros Himp; constructor.
  - eapply Himp; [ left; reflexivity | eassumption ].
  - apply IH. intros a' b' x y Hin. eapply Himp. right; assumption.
Qed.

(** An owned tree is in particular a representation. *)
Lemma tree_repr h j : forall v lo hi, tree h v j lo hi -> repr h v j.
Proof.
  induction j as [ | b | n | s | js IH | ms IH ] using json_ind;
    intros v lo hi Ht; inversion Ht; subst; try constructor.
  - econstructor; [ eassumption | ].
    eapply chain_Forall2; [ eassumption | ].
    rewrite List.Forall_forall in IH. intros a b x y Hin Hab. eapply IH; eauto.
  - econstructor; [ eassumption | assumption | ].
    eapply chain_Forall2; [ eassumption | ].
    rewrite List.Forall_forall in IH. intros a b x y Hin Hab. eapply IH; eauto.
Qed.

(** Frame and widening for chains of owned trees. *)
Lemma chain_tree_frame h h' vs js lo hi :
  chain (tree h) vs js lo hi ->
  (forall l, lo <= l < hi -> h' !! l = h !! l) ->
  chain (tree h') vs js lo hi.
Proof.
  intros Hc Hsame. eapply chain_impl; [ eassumption | ].
  intros a b x y _ Hx Hy Hab. eapply tree_frame; [ eassumption | ].
  intros l Hl. apply Hsame. lia.
Qed.

Lemma chain_tree_widen h vs js lo lo' hi :
  chain (tree h) vs js lo hi -> lo' <= lo -> chain (tree h) vs js lo' hi.
Proof.
  intros Hc Hlo. eapply chain_widen; [ eassumption | | assumption ].
  intros a b x x' y _ Hx Hab. eapply tree_widen; eauto.
Qed.

(** ** [JSON.parse] builds an owned tree in fresh cells *)

Lemma tree_app h new v j lo hi :
  tree h v j lo hi -> hi <= length h -> tree (h ++ new) v j lo hi.
Proof.
  intros Ht Hhi. eapply tree_frame; [ eassumption | ].
  intros l Hl. apply lookup_app_l. lia.
Qed.

Lemma mapS_parse_chain js :
  Forall parses_fresh js ->
  forall h, exists vs new,
    mapS parse js h = (vs, h ++ new) /\
    chain (tree (h ++ new)) vs js (length h) (length (h ++ new)).
Proof.
  induction 1 as [ | j js Hj _ IH ]; intros h.
  - exists [], []. rewrite app_nil_r. split; [ reflexivity | constructor; lia ].
  - destruct (Hj h) as (v & n1 & Ev & Tv).
    destruct (IH (h ++ n1)) as (vs & n2 & Evs & Tvs).
    exists (v :: vs), (n1 ++ n2). cbn. rewrite Ev, Evs, app_assoc.
    split; [ reflexivity | ].
    apply chain_cons with (mid := length (h ++ n1)); [ | | assumption ].
    + rewrite length_app. lia.
    + apply tree_app; [ assumption | lia ].
Qed.

Lemma mapS_members ms : forall h,
  exists props,
    mapS (fun (m : string * json) h0 => let '(v, h') := parse m.2 h0 in ((m.1, v), h')) ms h
    = (props, (mapS parse (map snd ms) h).2) /\
    map fst props = map fst ms /\
    map snd props = (mapS parse (map snd ms) h).1.
Proof.
  induction ms as [ | [k j] ms IH ]; intros h; cbn.
  - exists []. auto.
  - destruct (parse j h) as [v h1].
    destruct (IH h1) as (props & E & Hk & Hv). rewrite E.
    destruct (mapS parse (map snd ms) h1) as [vs h2]. cbn in *.
    exists ((k, v) :: props). cbn. rewrite Hk, Hv. auto.
Qed.

Lemma parse_tree j : parses_fresh j.
Proof.
  induction j as [ | b | n | s | js IH | ms IH ] using json_ind; intros h.
  - exists VNull, []. rewrite app_nil_r. split; [ reflexivity | constructor; lia ].
  - exists (VBool b), []. rewrite app_nil_r. split; [ reflexivity | constructor; lia ].
  - exists (VNum n), []. rewrite app_nil_r. split; [ reflexivity | constructor; lia ].
  - exists (VStr s), []. rewrite app_nil_r. split; [ reflexivity | constructor; lia ].
  - destruct (mapS_parse_chain js IH h) as (items & new & E & Hc).
    exists (VRef (length (h ++ new))), (new ++ [Arr items]).
    cbn [parse]. rewrite E, app_assoc. split; [ reflexivity | ].
    econstructor.
    + apply list_lookup_middle. reflexivity.
    + eapply chain_tree_frame; [ eassumption | ].
      intros l Hl. apply lookup_app_l. lia.
    + rewrite (length_app (h ++ new)). cbn. lia.
  - destruct (mapS_parse_chain _ IH h) as (vs & new & E & Hc).
    destruct (mapS_members ms h) as (props & Ep & Hk & Hv).
    rewrite E in Ep, Hv. cbn in Ep, Hv.
    exists (VRef (length (h ++ new))), (new ++ [Obj props]).
    cbn [parse]. rewrite Ep, app_assoc. split; [ reflexivity | ].
    econstructor.
    + apply list_lookup_middle. reflexivity.
    + assumption.
    + rewrite Hv. eapply chain_tree_frame; [ eassumption | ].
      intros l Hl. apply lookup_app_l. lia.
    + rewrite (length_app (h ++ new)). cbn. lia.
Qed.

(** A parsed body is a representation of its tree. *)
Lemma parse_repr j h : repr (parse j h).2 (parse j h).1 j.
Proof.
  destruct (parse_tree j h) as (v & new & E & T). rewrite E. cbn.
  eapply tree_repr. exact T.
Qed.

(** ** Deleting fields *)

Lemma delete_fields_filter fields : forall props,
  delete_fields fields props
  = List.filter (fun p => negb (includes fields p.1)) props.
Proof.
  unfold delete_fields.
  induction fields as [ | f fields IH ]; intros props; cbn [fold_left].
  - induction props as [ | p props IHp ]; cbn in *; congruence.
  - rewrite IH. unfold remove_key.
    induction props as [ | p props IHp ]; cbn [List.filter]; [ reflexivity | ].
    change (includes (f :: fields) p.1)
      with (String.eqb p.1 f || includes fields p.1).
    destruct (String.eqb p.1 f); cbn [negb orb List.filter]; [ assumption | ].
    destruct (includes fields p.1); cbn [negb]; congruence.
Qed.

Section keyed_filter.
Context {A B : Type} (keep : string -> bool).

Lemma filter_keys (xs : list (string * A)) : forall (ys : list (string * B)),
  map fst xs = map fst ys ->
  map fst (List.filter (fun p => keep p.1) xs)
  = map fst (List.filter (fun p => keep p.1) ys).
Proof.
  induction xs as [ | [k a] xs IH ]; intros [ | [k' b] ys ] Hk; cbn in *;
    try discriminate; [ reflexivity | ].
  inversion Hk; subst. destruct (keep k'); cbn; rewrite (IH ys); auto.
Qed.

Lemma Forall_filter_values (P : A -> Prop) (xs : list (string * A)) :
  Forall P (map snd xs) ->
  Forall P (map snd (List.filter (fun p => keep p.1) xs)).
Proof.
  induction xs as [ | [k a] xs IH ]; cbn; intros H; [ constructor | ].
  inversion H; subst. destruct (keep k); cbn; auto.
Qed.
End keyed_filter.

Lemma chain_filter (keep : string -> bool) h (props : list (string * value)) :
  forall (ms : list (string * json)) lo hi,
    map fst props = map fst ms ->
    chain (tree h) (map snd props) (map snd ms) lo hi ->
    chain (tree h) (map snd (List.filter (fun p => keep p.1) props))
                   (map snd (List.filter (fun m => keep m.1) ms)) lo hi.
Proof.
  induction props as [ | [k v] props IH ]; intros [ | [k' j] ms ] lo hi Hk Hc;
    cbn in *; try discriminate; [ assumption | ].
  inversion Hk; subst. inversion Hc; subst.
  destruct (keep k'); cbn.
  - econstructor; eauto.
  - eapply chain_tree_widen; [ apply IH; eassumption | assumption ].
Qed.

Lemma strip_members fields (ms : list (string * json)) :
  List.filter (fun m => negb (includes fields m.1))
              (map (fun m => (m.1, strip fields m.2)) ms)
  = map (fun m => (m.1, strip fields m.2))
        (List.filter (fun m => negb (includes fields m.1)) ms).
Proof.
  induction ms as [ | [k j] ms IH ]; cbn; [ reflexivity | ].
  destruct (includes fields k); cbn; congruence.
Qed.

(** ** [removeUnsupportedFields] on an owned tree *)

Lemma agree_outside_refl lo hi h : agree_outside lo hi h h.
Proof. split; auto. Qed.

Lemma forEach_chain fields n js :
  Forall (strips fields) js ->
  Forall (fun j => jdepth j <= n) js ->
  forall vs lo hi h,
    chain (tree h) vs js lo hi ->
    exists h',
      forEach (fun item => removeUnsupportedFields n item fields) vs h = Ok h' /\
      agree_outside lo hi h h' /\
      chain (tree h') vs (map (strip fields) js) lo hi.
Proof.
  induction 1 as [ | j js Hj _ IH ]; intros Hd vs lo hi h Hc; inversion Hc; subst.
  - exists h. split; [ reflexivity | ]. split; [ apply agree_outside_refl | ].
    constructor; assumption.
  - inversion Hd; subst.
    match goal with
    | Ht : tree h ?a j lo ?mid, Hr : chain _ ?xs js ?mid hi |- _ =>
        rename a into v0, mid into m, xs into vs0;
        destruct (Hj n h v0 lo m Ht) as (h1 & E1 & [L1 A1] & T1); [ assumption | ];
        assert (Hc1 : chain (tree h1) vs0 js m hi)
          by (eapply chain_tree_frame; [ exact Hr | intros l Hl; apply A1; lia ]);
        pose proof (chain_bounds _ _ _ _ _ Hr) as Hb
    end.
    destruct (IH ltac:(assumption) vs0 m hi h1 Hc1) as (h2 & E2 & [L2 A2] & C2).
    exists h2. cbn [forEach]. rewrite E1. cbn [bind]. split; [ exact E2 | ].
    split.
    + split; [ congruence | ].
      intros l Hl. rewrite A2 by lia. apply A1. lia.
    + cbn [map]. apply chain_cons with (mid := m); [ assumption | | assumption ].
      eapply tree_frame; [ exact T1 | ]. intros l Hl. apply A2. lia.
Qed.

Lemma removeUnsupportedFields_tree fields j : strips fields j.
Proof.
  induction j as [ | b | n | s | js IH | ms IH ] using json_ind;
    intros [ | fuel ] h v lo hi Ht Hd;
    try (pose proof (jdepth_pos JNull); cbn in Hd; lia);
    inversion Ht; subst.
  1-4: exists h; split; [ reflexivity | ]; split;
       [ apply agree_outside_refl | constructor; assumption ].
  - match goal with Hl : h !! _ = Some _, Hc : chain _ _ _ _ _ |- _ =>
      destruct (forEach_chain fields fuel js IH (jdepth_arr _ _ Hd) _ _ _ _ Hc)
        as (h' & E & [L A] & C);
      pose proof (chain_bounds _ _ _ _ _ Hc) as Hb;
      cbn [removeUnsupportedFields]; rewrite Hl
    end.
    exists h'. split; [ exact E | ]. split.
    + split; [ assumption | ]. intros l' Hl'. apply A. lia.
    + cbn [strip]. econstructor; [ rewrite A by lia; eassumption | exact C | assumption ].
  - set (keep := fun k : string => negb (includes fields k)).
    match goal with
    | Hl : h !! ?l0 = Some (Obj ?ps), Hk : map fst _ = map fst _, Hc : chain _ _ _ _ _ |- _ =>
        rename l0 into l, ps into props;
        pose proof (chain_bounds _ _ _ _ _ Hc) as Hb;
        pose proof (chain_filter keep h props ms lo l Hk Hc) as Hc';
        pose proof (filter_keys keep props ms Hk) as Hk';
        pose proof (lookup_lt_Some _ _ _ Hl) as Hlt;
        cbn [removeUnsupportedFields]; rewrite Hl, delete_fields_filter
    end.
    fold keep in Hc', Hk' |- *.
    set (props' := List.filter (fun p : string * value => keep p.1) props) in *.
    set (ms' := List.filter (fun m : string * json => keep m.1) ms) in *.
    assert (Hc1 : chain (tree (<[l := Obj props']> h)) (map snd props') (map snd ms') lo l).
    { eapply chain_tree_frame; [ exact Hc' | ].
      intros l' Hl'. apply list_lookup_insert_ne. lia. }
    destruct (forEach_chain fields fuel (map snd ms')
                (Forall_filter_values keep _ ms IH)
                (Forall_filter_values keep _ ms (jdepth_obj _ _ Hd))
                _ _ _ _ Hc1) as (h' & E & [L A] & C).
    exists h'. split; [ exact E | ]. split.
    + split; [ rewrite L; apply length_insert | ].
      intros l' Hl'. rewrite A by lia. apply list_lookup_insert_ne. lia.
    + cbn [strip]. fold keep. rewrite strip_members. fold keep. fold ms'.
      econstructor.
      * rewrite A by lia. apply list_lookup_insert_eq. assumption.
      * rewrite Hk'. rewrite map_map. cbn. reflexivity.
      * rewrite (map_map _ snd). cbn.
        rewrite <- (map_map snd (strip fields)). exact C.
      * assumption.
Qed.

(** ** Stripping and printing on trees *)

Lemma map_members_ext (f g : json -> json) (ms : list (string * json)) :
  Forall (fun j => f j = g j) (map snd ms) ->
  map (fun m => (m.1, f m.2)) ms = map (fun m => (m.1, g m.2)) ms.
Proof.
  induction ms as [ | [k j] ms IH ]; cbn; intros H; [ reflexivity | ].
  inversion H; subst. f_equal; [ congruence | auto ].
Qed.

Lemma list_max_map_le {A} (f g : A -> nat) (l : list A) :
  Forall (fun x => f x <= g x) l -> list_max (map f l) <= list_max (map g l).
Proof. induction 1; unfold list_max in *; cbn; lia. Qed.

Lemma list_max_filter_le {A} (f : A -> nat) (p : A -> bool) (l : list A) :
  list_max (map f (List.filter p l)) <= list_max (map f l).
Proof.
  induction l as [ | x l IH ]; unfold list_max in *; cbn; [ lia | ].
  destruct (p x); cbn; lia.
Qed.

Lemma mentions_strip fields j : mentions fields (strip fields j) = false.
Proof.
  induction j as [ | b | n | s | js IH | ms IH ] using json_ind; cbn [strip mentions];
    try reflexivity.
  - induction IH as [ | j js Hj _ IHjs ]; cbn; [ reflexivity | ].
    rewrite Hj. exact IHjs.
  - rewrite strip_members.
    induction ms as [ | [k j] ms IHms ]; cbn in *; [ reflexivity | ].
    inversion IH; subst.
    destruct (includes fields k) eqn:Ek; cbn; [ auto | ].
    rewrite Ek. cbn.
    match goal with H : mentions _ _ = false |- _ => rewrite H end. cbn. auto.
Qed.

Lemma number_json_printed n : printed (number_json n) = number_json n.
Proof.
  unfold number_json.
  destruct (is_finite n) eqn:Ef; [ | reflexivity ].
  cbn [printed]. unfold number_json.
  destruct (is_zero n) eqn:Ez; [ reflexivity | ].
  rewrite Ef, Ez. reflexivity.
Qed.

Lemma printed_idem j : printed (printed j) = printed j.
Proof.
  induction j as [ | b | n | s | js IH | ms IH ] using json_ind; cbn [printed];
    try reflexivity.
  - apply number_json_printed.
  - f_equal. rewrite map_map. apply map_ext_Forall. exact IH.
  - f_equal. rewrite map_map. cbn. apply (map_members_ext (fun j => printed (printed j))).
    exact IH.
Qed.

Lemma strip_idem fields j : strip fields (strip fields j) = strip fields j.
Proof.
  induction j as [ | b | n | s | js IH | ms IH ] using json_ind; cbn [strip];
    try reflexivity.
  - f_equal. rewrite map_map. apply map_ext_Forall. exact IH.
  - f_equal. rewrite !strip_members.
    induction ms as [ | [k j] ms IHms ]; cbn in *; [ reflexivity | ].
    inversion IH; subst.
    destruct (includes fields k) eqn:Ek; cbn; [ auto | ].
    rewrite Ek. cbn. f_equal; [ congruence | auto ].
Qed.

Lemma printed_strip fields j : printed (strip fields j) = strip fields (printed j).
Proof.
  induction j as [ | b | n | s | js IH | ms IH ] using json_ind; cbn [strip printed];
    try reflexivity.
  - unfold number_json. destruct (is_finite n); reflexivity.
  - f_equal. rewrite !map_map. apply map_ext_Forall. exact IH.
  - f_equal. rewrite !strip_members.
    induction ms as [ | [k j] ms IHms ]; cbn in *; [ reflexivity | ].
    inversion IH; subst.
    destruct (includes fields k) eqn:Ek; cbn; [ auto | ].
    f_equal; [ congruence | auto ].
Qed.

Lemma jdepth_printed j : jdepth (printed j) <= jdepth j.
Proof.
  induction j as [ | b | n | s | js IH | ms IH ] using json_ind; cbn [printed];
    try (cbn; lia).
  - unfold number_json. destruct (is_finite n); cbn; lia.
  - cbn [jdepth]. rewrite map_map. apply le_n_S, list_max_map_le. exact IH.
  - cbn [jdepth]. rewrite map_map. cbn. apply le_n_S, list_max_map_le.
    exact (proj1 (Forall_map _ _ _) IH).
Qed.

Lemma jdepth_strip fields j : jdepth (strip fields j) <= jdepth j.
Proof.
  induction j as [ | b | n | s | js IH | ms IH ] using json_ind; cbn [strip];
    try (cbn; lia).
  - cbn [jdepth]. rewrite map_map. apply le_n_S, list_max_map_le. exact IH.
  - cbn [jdepth]. apply le_n_S.
    etransitivity; [ apply list_max_filter_le | ].
    rewrite map_map. cbn. apply list_max_map_le.
    exact (proj1 (Forall_map _ _ _) IH).
Qed.

(** ** [makeBodyCompatible] *)

Lemma preserved_refl h : preserved h h.
Proof. intros l c H. exact H. Qed.

(** A value that is not a reference stands for a tree without members. *)
Lemma repr_falsy h b j fields :
  repr h b j -> truthy b = false -> mentions fields j = false.
Proof. inversion 1; subst; cbn; intros; try reflexivity; discriminate. Qed.

(** The copy made for [v1]: a truthy body is printed, parsed into fresh
    cells and stripped there; no cell of the store before the call changes. *)
Lemma makeBodyCompatible_copy fuel h b j :
  repr h b j -> jdepth j <= fuel -> truthy b = true ->
  exists b' h',
    makeBodyCompatible fuel h (Some b) V1 = Ok (Some b', h') /\
    preserved h h' /\
    tree h' b' (strip unsupportedFields (printed j)) (length h) (length h').
Proof.
  intros Hr Hd Ht. unfold makeBodyCompatible. rewrite Ht.
  rewrite (stringify_repr h j fuel b Hr Hd). cbn [bind].
  destruct (parse_tree (printed j) h) as (v & new & E & T). rewrite E.
  pose proof (jdepth_printed j) as Hp.
  destruct (removeUnsupportedFields_tree unsupportedFields (printed j) fuel
              (h ++ new) v _ _ T ltac:(lia)) as (h2 & E2 & [L A] & T2).
  rewrite E2. cbn [bind]. exists v, h2. split; [ reflexivity | ]. split.
  - intros l c Hl. pose proof (lookup_lt_Some _ _ _ Hl).
    rewrite A by lia. rewrite lookup_app_l by assumption. exact Hl.
  - rewrite L. exact T2.
Qed.

(** What [makeBodyCompatible] does for target [v1], on any JSON body. *)
Lemma makeBodyCompatible_spec fuel h b j :
  repr h b j -> jdepth j <= fuel ->
  exists b' h' j',
    makeBodyCompatible fuel h (Some b) V1 = Ok (Some b', h') /\
    repr h' b' j' /\
    mentions unsupportedFields j' = false /\
    j' = (if truthy b then strip unsupportedFields (printed j) else j) /\
    repr h' b j /\
    preserved h h'.
Proof.
  intros Hr Hd. destruct (truthy b) eqn:Ht.
  - destruct (makeBodyCompatible_copy fuel h b j Hr Hd Ht) as (b' & h' & E & Hp & T).
    exists b', h', (strip unsupportedFields (printed j)).
    split; [ exact E | ]. split; [ eapply tree_repr; exact T | ].
    split; [ apply mentions_strip | ]. split; [ reflexivity | ].
    split; [ eapply repr_preserved; eassumption | exact Hp ].
  - exists b, h, j. unfold makeBodyCompatible. rewrite Ht.
    split; [ reflexivity | ]. split; [ exact Hr | ].
    split; [ eapply repr_falsy; eassumption | ].
    split; [ reflexivity | ]. split; [ exact Hr | apply preserved_refl ].
Qed.

Lemma makeBodyCompatible_other fuel h body v :
  v = V1beta \/ body = None -> makeBodyCompatible fuel h body v = Ok (body, h).
Proof. intros [ -> | -> ]; [ destruct body | ]; reflexivity. Qed.

(** The result of the transform is a fixed point of stripping and printing. *)
Lemma compatible_fixed b j :
  let j' := if truthy b then strip unsupportedFields (printed j) else j in
  forall b', (truthy b = false -> b' = b) ->
  (if truthy b' then strip unsupportedFields (printed j') else j') = j'.
Proof.
  intros j' b' Hb. subst j'. destruct (truthy b) eqn:Ht.
  - destruct (truthy b'); [ | reflexivity ].
    rewrite <- printed_strip, strip_idem, printed_strip, printed_idem. reflexivity.
  - rewrite (Hb eq_refl), Ht. reflexivity.
Qed.

(** C1. For every JSON body, [makeBodyCompatible] with target [v1] returns a
    body in which no object, at any depth, has a member [systemInstruction],
    [tool_config] or [tool_calls] (it is the stripped copy of the input), and
    the input is not mutated: it still stands for the same tree, and every
    cell of the store before the call is unchanged. *)
Theorem makeBodyCompatible_v1_strips_and_keeps_input fuel h b j :
  repr h b j -> jdepth j <= fuel ->
  exists b' h' j',
    makeBodyCompatible fuel h (Some b) V1 = Ok (Some b', h') /\
    repr h' b' j' /\
    mentions unsupportedFields j' = false /\
    j' = (if truthy b then strip unsupportedFields (printed j) else j) /\
    repr h' b j /\
    preserved h h'.
Proof. apply makeBodyCompatible_spec. Qed.

Lemma makeBodyCompatible_v1_strips_and_keeps_input_witness :
  exists b' h',
    makeBodyCompatible 6 (Samples.store_of Samples.with_tools)
                       (Some (Samples.body_of Samples.with_tools)) V1
    = Ok (Some b', h') /\
    repr h' b' (JObj [("contents",
                       JArr [JObj [("parts", JArr [JObj [("text", JStr "hi")]])]])]) /\
    repr h' (Samples.body_of Samples.with_tools) Samples.with_tools.
Proof.
  destruct (makeBodyCompatible_v1_strips_and_keeps_input 6
              (Samples.store_of Samples.with_tools)
              (Samples.body_of Samples.with_tools) Samples.with_tools)
    as (b' & h' & j' & E & R & _ & Hj & R0 & _).
  - apply parse_repr.
  - vm_compute. lia.
  - exists b', h'. vm_compute in Hj. subst j'. auto.
Defined.

(** C8. The [v1] transform is idempotent: run on its own result, it returns
    a body that stands for the same tree as that result (and leaves that
    result as it was). *)
Theorem makeBodyCompatible_v1_idempotent fuel h b j :
  repr h b j -> jdepth j <= fuel ->
  exists b1 h1 b2 h2 j1,
    makeBodyCompatible fuel h (Some b) V1 = Ok (Some b1, h1) /\
    makeBodyCompatible fuel h1 (Some b1) V1 = Ok (Some b2, h2) /\
    repr h1 b1 j1 /\
    repr h2 b2 j1 /\
    repr h2 b1 j1.
Proof.
  intros Hr Hd.
  destruct (makeBodyCompatible_spec fuel h b j Hr Hd)
    as (b1 & h1 & j1 & E1 & R1 & _ & Hj1 & _ & _).
  assert (Hd1 : jdepth j1 <= fuel).
  { subst j1. destruct (truthy b); [ | assumption ].
    pose proof (jdepth_strip unsupportedFields (printed j)).
    pose proof (jdepth_printed j). lia. }
  destruct (makeBodyCompatible_spec fuel h1 b1 j1 R1 Hd1)
    as (b2 & h2 & j2 & E2 & R2 & _ & Hj2 & R1' & _).
  exists b1, h1, b2, h2, j1. repeat split; try assumption.
  replace j1 with j2; [ exact R2 | ].
  rewrite Hj2, Hj1. apply compatible_fixed.
  intros Hf. unfold makeBodyCompatible in E1. rewrite Hf in E1. congruence.
Qed.

Lemma makeBodyCompatible_v1_idempotent_witness :
  exists b1 h1 b2 h2 j1,
    makeBodyCompatible 6 (Samples.store_of Samples.with_tools)
                       (Some (Samples.body_of Samples.with_tools)) V1
    = Ok (Some b1, h1) /\
    makeBodyCompatible 6 h1 (Some b1) V1 = Ok (Some b2, h2) /\
    repr h1 b1 j1 /\
    repr h2 b2 j1.
Proof.
  destruct (makeBodyCompatible_v1_idempotent 6
              (Samples.store_of Samples.with_tools)
              (Samples.body_of Samples.with_tools) Samples.with_tools)
    as (b1 & h1 & b2 & h2 & j1 & E1 & E2 & R1 & R2 & _).
  - apply parse_repr.
  - vm_compute. lia.
  - exists b1, h1, b2, h2, j1. auto.
Defined.

(** ** Credential extractor *)

Lemma append_nil s : "" +:+ s = s.
Proof. reflexivity. Qed.

Lemma append_cons a w s : String a w +:+ s = String a (w +:+ s).
Proof. reflexivity. Qed.

Lemma trimStart_ws_app w s :
  Str.all Str.is_ws w = true -> Str.trimStart (w +:+ s) = Str.trimStart s.
Proof.
  induction w as [ | a w IH ]; rewrite ?append_nil, ?append_cons; cbn; intros H;
    [ reflexivity | ].
  apply andb_true_iff in H as [Ha Hw]. rewrite Ha. auto.
Qed.

Lemma trim_ws_app w s : Str.all Str.is_ws w = true -> Str.trim (w +:+ s) = Str.trim s.
Proof. intros H. unfold Str.trim. rewrite trimStart_ws_app by assumption. reflexivity. Qed.

(** A string without white space is its own trim. *)
Lemma trim_no_ws s :
  Str.all (fun c => negb (Str.is_ws c)) s = true -> Str.trim s = s.
Proof.
  intros H. unfold Str.trim.
  assert (Hs : Str.trimStart s = s).
  { destruct s as [ | a s ]; cbn in *; [ reflexivity | ].
    apply andb_true_iff in H as [Ha _]. apply negb_true_iff in Ha. rewrite Ha.
    reflexivity. }
  rewrite Hs. clear Hs.
  induction s as [ | a s IH ]; cbn in *; [ reflexivity | ].
  apply andb_true_iff in H as [Ha Hs]. apply negb_true_iff in Ha.
  rewrite Ha, (IH Hs). reflexivity.
Qed.

(** What [\s+] consumed is white space, and the group is the rest. *)
Lemma ws_plus_rest_split s : forall g,
  ws_plus_rest s = Some g -> exists w, s = w +:+ g /\ Str.all Str.is_ws w = true.
Proof.
  induction s as [ | a s IH ]; cbn; intros g H; [ discriminate | ].
  destruct (Str.is_ws a) eqn:Ha; [ | discriminate ].
  destruct (ws_plus_rest s) as [ g' | ] eqn:Es.
  - inversion H; subst. destruct (IH g eq_refl) as (w & -> & Hw).
    exists (String a w). rewrite ?append_nil, ?append_cons; cbn. rewrite Ha, Hw. auto.
  - unfold dot_plus_end in H.
    destruct (negb (Str.is_empty s) && _); inversion H; subst.
    exists (String a ""). rewrite ?append_nil, ?append_cons; cbn. rewrite Ha. auto.
Qed.

(** White space followed by a token always matches [\s+(.+)$]. *)
Lemma ws_plus_rest_matches w tok :
  w <> "" -> Str.all Str.is_ws w = true -> dot_plus_end tok = Some tok ->
  exists g, ws_plus_rest (w +:+ tok) = Some g.
Proof.
  intros Hw Hall Htok.
  induction w as [ | a w IH ]; [ congruence | ].
  cbn in Hall. apply andb_true_iff in Hall as [Ha Hall].
  rewrite ?append_nil, ?append_cons; cbn. rewrite Ha.
  destruct (ws_plus_rest (w +:+ tok)) as [ g | ] eqn:E; [ eauto | ].
  destruct w as [ | a' w ].
  - rewrite append_nil in *. rewrite Htok. eauto.
  - destruct IH as (g & Hg); [ discriminate | assumption | discriminate ].
Qed.

Lemma strip_prefix_ci_app b : forall p rest,
  Str.toLowerCase b = p -> Str.strip_prefix_ci p (b +:+ rest) = Some rest.
Proof.
  induction b as [ | c b IH ]; intros p rest <-;
    rewrite ?append_nil, ?append_cons; cbn; [ reflexivity | ].
  rewrite Ascii.eqb_refl. apply IH. reflexivity.
Qed.

(** The regular expression on [Bearer], white space, token: it matches, and
    the group is the token up to leading white space. *)
Lemma bearer_match_token b w tok :
  Str.toLowerCase b = "bearer" ->
  w <> "" -> Str.all Str.is_ws w = true ->
  tok <> "" -> Str.all (fun c => negb (Str.is_line_terminator c)) tok = true ->
  exists g, bearer_match (b +:+ w +:+ tok) = Some g /\ Str.trim g = Str.trim tok.
Proof.
  intros Hb Hw Hall Htok Hlt.
  assert (Hdot : dot_plus_end tok = Some tok).
  { unfold dot_plus_end. rewrite Hlt. destruct tok; [ congruence | reflexivity ]. }
  destruct (ws_plus_rest_matches w tok Hw Hall Hdot) as (g & Hg).
  exists g. unfold bearer_match. rewrite (strip_prefix_ci_app b "bearer") by assumption.
  split; [ exact Hg | ].
  destruct (ws_plus_rest_split _ _ Hg) as (w' & E & Hw').
  rewrite <- (trim_ws_app w' g Hw'), <- E. apply trim_ws_app. assumption.
Qed.

Lemma first_query_key_none q keys :
  (forall k, In k keys -> assoc k q = None) -> first_query_key q keys = None.
Proof.
  induction keys as [ | k keys IH ]; cbn; intros H; [ reflexivity | ].
  rewrite (H k) by (left; reflexivity). apply IH. intros k' Hk'. apply H. right; assumption.
Qed.

Lemma nonempty_some s : s <> "" -> nonempty (Some s) = Some s.
Proof. destruct s; [ congruence | reflexivity ]. Qed.

(** C5, as the code has it.  With no vendor key header and an
    [Authorization] value [auth]:
    - if [auth] is [Bearer] (in any case), white space, and a token, the
      key is the token, trimmed;
    - else, if [auth] is not empty and has no space character, the key is
      [auth], trimmed (and [auth] itself when it has no white space at all);
    - else, if [auth] has a space and no query parameter carries a key,
      there is no key;
    - an empty [auth] is skipped like an absent header: the key is the
      one the query gives, the same as for a request with the same query
      and no [Authorization] header at all. *)
Theorem extractApiKey_authorization req auth :
  assoc "x-goog-api-key" (headers req) = None ->
  assoc "authorization" (headers req) = Some auth ->
  (forall b w tok,
      auth = b +:+ w +:+ tok ->
      Str.toLowerCase b = "bearer" ->
      w <> "" -> Str.all Str.is_ws w = true ->
      tok <> "" -> Str.all (fun c => negb (Str.is_line_terminator c)) tok = true ->
      extractApiKey req = Some (QStr (Str.trim tok)))
  /\ (auth <> "" -> bearer_match auth = None -> Str.includes auth " " = false ->
      extractApiKey req = Some (QStr (Str.trim auth))
      /\ (Str.all (fun c => negb (Str.is_ws c)) auth = true ->
          extractApiKey req = Some (QStr auth)))
  /\ (bearer_match auth = None -> Str.includes auth " " = true ->
      (forall k, In k queryKeys -> assoc k (query req) = None) ->
      extractApiKey req = None)
  /\ (auth = "" ->
      extractApiKey req = first_query_key (query req) queryKeys
      /\ forall req',
           assoc "x-goog-api-key" (headers req') = None ->
           assoc "authorization" (headers req') = None ->
           query req' = query req ->
           extractApiKey req = extractApiKey req').
Proof.
  intros Hv Ha.
  assert (Hempty : auth = "" ->
                   extractApiKey req = first_query_key (query req) queryKeys).
  { intros ->. unfold extractApiKey. rewrite Hv, Ha. reflexivity. }
  unfold extractApiKey at 1 2 3 4. rewrite Hv, Ha.
  change (nonempty None) with (@None string). cbv beta iota.
  split; [ | split; [ | split ] ].
  - intros b w tok -> Hb Hw Hall Htok Hlt.
    destruct (bearer_match_token b w tok Hb Hw Hall Htok Hlt) as (g & Hg & Ht).
    rewrite nonempty_some.
    + rewrite Hg, Ht. reflexivity.
    + destruct b; [ discriminate | discriminate ].
  - intros Hne Hm Hsp. rewrite nonempty_some by assumption. rewrite Hm, Hsp. cbn [negb].
    split; [ reflexivity | ]. intros Hws. rewrite trim_no_ws by assumption. reflexivity.
  - intros Hm Hsp Hq.
    destruct (nonempty (Some auth)) as [ a | ] eqn:E.
    + assert (a = auth) by (destruct auth; cbn in E; congruence). subst a.
      rewrite Hm, Hsp. cbn [negb]. apply first_query_key_none. assumption.
    + apply first_query_key_none. assumption.
  - intros He. split; [ exact (Hempty He) | ].
    intros req' Hv' Ha' Hq'. rewrite (Hempty He).
    unfold extractApiKey. rewrite Hv', Ha', Hq'. reflexivity.
Qed.

Lemma extractApiKey_authorization_witness :
  extractApiKey Samples.bearer_abc = Some (QStr "abc") /\
  extractApiKey Samples.bare_token = Some (QStr "tok123") /\
  extractApiKey Samples.basic_auth = None /\
  extractApiKey Samples.empty_authorization = Some (QStr "abc").
Proof.
  destruct (extractApiKey_authorization Samples.bearer_abc "bearer   abc "
              eq_refl eq_refl) as (Hbearer & _ & _ & _).
  destruct (extractApiKey_authorization Samples.bare_token "tok123"
              eq_refl eq_refl) as (_ & Hbare & _ & _).
  destruct (extractApiKey_authorization Samples.basic_auth "Basic abc"
              eq_refl eq_refl) as (_ & _ & Hnone & _).
  destruct (extractApiKey_authorization Samples.empty_authorization ""
              eq_refl eq_refl) as (_ & _ & _ & Hskip).
  split; [ | split; [ | split ] ].
  - apply (Hbearer "bearer" "   " "abc "); try reflexivity; discriminate.
  - apply Hbare; try reflexivity; discriminate.
  - apply Hnone; try reflexivity.
    intros k Hk. cbn in Hk.
    destruct Hk as [ <- | [ <- | [ <- | [ <- | [ <- | [] ] ] ] ] ]; reflexivity.
  - destruct (Hskip eq_refl) as [Hq _]. rewrite Hq. reflexivity.
Defined.

(** The second clause is an else-branch of the first: [Bearer], a TAB and a
    token has no space character, and the key is the token. *)
Example extractApiKey_bearer_tab :
  let auth := "Bearer" +:+ String (ascii_of_nat 9) "abc" in
  Str.includes auth " " = false /\
  extractApiKey (Request "GET" "/models" [] [("authorization", auth)] None)
  = Some (QStr "abc").
Proof. split; reflexivity. Qed.

(** The second clause of C5 as first stated, without "not empty": an empty
    [Authorization] value has no space, yet the key comes from the query. *)
Lemma extractApiKey_empty_authorization_counterexample :
  ~ (forall req auth,
        assoc "x-goog-api-key" (headers req) = None ->
        assoc "authorization" (headers req) = Some auth ->
        Str.includes auth " " = false ->
        extractApiKey req = Some (QStr (Str.trim auth))).
Proof.
  intros H.
  specialize (H Samples.empty_authorization "" eq_refl eq_refl eq_refl).
  vm_compute in H. discriminate H.
Qed.

(** ** Version negotiation and path rewrite *)

Lemma versionMatch_v1 p : Str.startsWith p "/v1/" = true -> versionMatch p = Some V1.
Proof. intros H. unfold versionMatch. rewrite H. reflexivity. Qed.

Lemma targetPath_v1 p : Str.startsWith p "/v1/" = true -> targetPath V1 p = p.
Proof.
  intros H. unfold targetPath.
  change ("/" +:+ version_str V1 +:+ "/") with "/v1/". rewrite H. reflexivity.
Qed.

Lemma v1_not_favicon p :
  Str.startsWith p "/v1/" = true -> String.eqb p "/favicon.ico" = false.
Proof.
  intros H. destruct (String.eqb p "/favicon.ico") eqn:E; [ | reflexivity ].
  apply String.eqb_eq in E. subst p. vm_compute in H. discriminate H.
Qed.

(** Without a version in the path the target is the default, [v1beta],
    whatever the detection answers, as long as it answers. *)
Lemma targetVersion_default h p body_ d :
  versionMatch p = None ->
  needsVersionDowngrade h body_ = Ok d ->
  targetVersion h p body_ = Ok V1beta.
Proof.
  intros Hm Hd. unfold targetVersion. rewrite Hm, Hd. destruct d; reflexivity.
Qed.

(** The handler, once past the favicon, debug and key checks. *)
Lemma handler_forwards fuel si req rs h k v cb h' :
  String.eqb (path req) "/favicon.ico" = false ->
  debug_requested req = false ->
  extractApiKey req = Some k -> qtruthy k = true ->
  targetVersion h (path req) (body req) = Ok v ->
  makeBodyCompatible fuel h (body req) v = Ok (cb, h') ->
  handler fuel si req rs h
  = Ok (CallAxios
          {| ax_method := method req;
             ax_url := TargetUrl UPSTREAM_HOST (targetPath v (path req))
                                 (queryParams (query req) k);
             ax_headers := upstreamHeaders (headers req);
             ax_data := if includes ["POST"; "PUT"; "PATCH"] (method req)
                        then cb else None |}, h').
Proof.
  intros Hf Hd Hk Hq Hv Hb. unfold handler.
  rewrite Hf, Hd, Hk, Hq, Hv. cbn [bind]. rewrite Hb. reflexivity.
Qed.

Lemma mentions_mono fields fields' j :
  (forall k, includes fields k = true -> includes fields' k = true) ->
  mentions fields j = true -> mentions fields' j = true.
Proof.
  intros Hsub.
  induction j as [ | b | n | s | js IH | ms IH ] using json_ind; cbn [mentions];
    try discriminate.
  - rewrite List.Forall_forall in IH. rewrite !existsb_exists.
    intros (x & Hin & Hx). exists x. auto.
  - rewrite Forall_map, List.Forall_forall in IH. rewrite !existsb_exists.
    intros (m & Hin & Hm). exists m. split; [ assumption | ].
    apply orb_true_iff in Hm as [ Hm | Hm ]; apply orb_true_iff; auto.
Qed.

Lemma no_tool_calls j :
  mentions unsupportedFields j = false -> mentions ["tool_calls"] j = false.
Proof.
  intros H. destruct (mentions ["tool_calls"] j) eqn:E; [ | reflexivity ].
  rewrite (mentions_mono ["tool_calls"] unsupportedFields j) in H; [ discriminate | | exact E ].
  intros k Hk. cbn in *. rewrite orb_false_r in Hk. rewrite Hk, !orb_true_r. reflexivity.
Qed.

(** C3. A path that starts with [/v1/] decides the version: the target is
    [v1] without a look at the body, the path is left as it is, and the
    transformer, run for [v1], returns the inbound body stripped: the tree
    of the outbound body is the (printed) inbound tree without its
    restricted members, so it has no [tool_calls] (nor any other restricted
    field) at any depth and everything else of the body is kept.  That
    body is what a keyed, non-debug request sends upstream with [POST],
    [PUT] or [PATCH]. *)
Theorem explicit_v1_path_wins fuel si req rs h :
  Str.startsWith (path req) "/v1/" = true ->
  targetVersion h (path req) (body req) = Ok V1 /\
  targetPath V1 (path req) = path req /\
  forall b j,
    body req = Some b -> repr h b j -> jdepth j <= fuel ->
    exists b' h' j',
      makeBodyCompatible fuel h (body req) V1 = Ok (Some b', h') /\
      repr h' b' j' /\
      j' = (if truthy b then strip unsupportedFields (printed j) else j) /\
      mentions ["tool_calls"] j' = false /\
      mentions unsupportedFields j' = false /\
      forall k,
        extractApiKey req = Some k -> qtruthy k = true ->
        debug_requested req = false ->
        exists cfg,
          handler fuel si req rs h = Ok (CallAxios cfg, h') /\
          u_path (ax_url cfg) = path req /\
          ax_data cfg = if includes ["POST"; "PUT"; "PATCH"] (method req)
                        then Some b' else None.
Proof.
  intros Hp.
  assert (Hv : targetVersion h (path req) (body req) = Ok V1)
    by (unfold targetVersion; rewrite (versionMatch_v1 _ Hp); reflexivity).
  split; [ exact Hv | ]. split; [ apply targetPath_v1; exact Hp | ].
  intros b j Hb Hr Hd. rewrite Hb in *.
  destruct (makeBodyCompatible_spec fuel h b j Hr Hd)
    as (b' & h' & j' & E & R & M & Hj & _ & _).
  exists b', h', j'. split; [ exact E | ]. split; [ exact R | ].
  split; [ exact Hj | ].
  split; [ apply no_tool_calls; exact M | ]. split; [ exact M | ].
  intros k Hk Hq Hdbg. eexists. split.
  - apply (handler_forwards fuel si req rs h k V1 (Some b') h');
      [ apply v1_not_favicon; exact Hp | exact Hdbg | exact Hk | exact Hq
      | rewrite Hb; exact Hv | rewrite Hb; exact E ].
  - cbn. split; [ apply targetPath_v1; exact Hp | reflexivity ].
Qed.

Lemma explicit_v1_path_wins_witness :
  targetVersion (Samples.store_of Samples.with_tools) "/v1/models"
                (Some (Samples.body_of Samples.with_tools)) = Ok V1 /\
  exists cfg h' b',
    handler 6 JNull (Samples.post "/v1/models" Samples.with_tools) Samples.fresh
            (Samples.store_of Samples.with_tools) = Ok (CallAxios cfg, h') /\
    u_path (ax_url cfg) = "/v1/models" /\
    ax_data cfg = Some b' /\
    repr h' b' (JObj [("contents",
                       JArr [JObj [("parts", JArr [JObj [("text", JStr "hi")]])]])]).
Proof.
  destruct (explicit_v1_path_wins 6 JNull
              (Samples.post "/v1/models" Samples.with_tools) Samples.fresh
              (Samples.store_of Samples.with_tools) eq_refl) as (Hv & _ & Hb).
  split; [ exact Hv | ].
  destruct (Hb (Samples.body_of Samples.with_tools) Samples.with_tools eq_refl)
    as (b' & h' & j' & _ & R & Hj & _ & _ & Hh).
  - apply parse_repr.
  - vm_compute. lia.
  - destruct (Hh (QStr "XYZ") eq_refl eq_refl eq_refl) as (cfg & E & P & D).
    vm_compute in Hj. subst j'.
    exists cfg, h', b'. auto.
Defined.

(** ** Feature detection and malformed shapes *)

Lemma forEach_no_throw {A} (f : A -> heap -> result heap) e xs :
  (forall x h, f x h <> Throw e) -> forall h, forEach f xs h <> Throw e.
Proof.
  intros Hf. induction xs as [ | x xs IH ]; intros h; cbn; [ discriminate | ].
  destruct (f x h) as [ h' | e' | ] eqn:E; cbn; [ apply IH | | discriminate ].
  destruct e, e'. intros _. exact (Hf x h E).
Qed.

(** Field stripping raises no exception, on any store. *)
Lemma removeUnsupportedFields_no_throw fuel : forall obj fields h e,
  removeUnsupportedFields fuel obj fields h <> Throw e.
Proof.
  induction fuel as [ | fuel IH ]; intros obj fields h e; cbn; [ discriminate | ].
  destruct obj as [ | b | n | s | l ]; try discriminate.
  destruct (h !! l) as [ [ props | items ] | ]; [ | | discriminate ];
    apply forEach_no_throw; intros x h0; apply IH.
Qed.

(** A body that is absent or not an object has no feature flags. *)
Lemma needsVersionDowngrade_not_object h body_ :
  match body_ with Some b => is_object b = false | None => True end ->
  needsVersionDowngrade h body_ = Ok false.
Proof.
  destruct body_ as [ b | ]; [ | reflexivity ]. intros H.
  unfold needsVersionDowngrade. rewrite H, orb_true_r. reflexivity.
Qed.

(** C2. The claim is that detection and stripping never throw on malformed
    shapes.  Stripping does not ([removeUnsupportedFields_no_throw]);
    detection does: for the body [{"contents":[null]}] the read of
    [content.parts] on the [null] element raises a [TypeError]. *)
Theorem needsVersionDowngrade_throws_on_null_content :
  needsVersionDowngrade (Samples.store_of Samples.null_content)
                        (Some (Samples.body_of Samples.null_content))
  = Throw TypeError.
Proof. reflexivity. Qed.

(** The detection looks at the direct members of a part only. *)
Example needsVersionDowngrade_is_shallow :
  let j := JObj [("contents",
                  JArr [JObj [("parts",
                               JArr [JObj [("functionCall",
                                            JObj [("tool_calls", JBool true)])]])]])] in
  needsVersionDowngrade (parse j []).2 (Some (parse j []).1) = Ok false.
Proof. reflexivity. Qed.

(** C4. The claim is that [tool_calls] anywhere below
    [contents[0].parts[2]] gives target [v1beta] on a path without version.
    Whenever detection answers, the target is [v1beta]
    ([targetVersion_default]); but for
    [{"contents":[{"parts":[null,null,{"functionCall":{"tool_calls":[true]}}]}]}]
    detection raises a [TypeError] on [parts[0]] and no version is chosen. *)
Theorem targetVersion_throws_on_null_part :
  versionMatch "/models" = None /\
  mentions ["tool_calls"] Samples.deep_tool_calls = true /\
  targetVersion (Samples.store_of Samples.deep_tool_calls) "/models"
                (Some (Samples.body_of Samples.deep_tool_calls))
  = Throw TypeError.
Proof. repeat split; reflexivity. Qed.

(** On a path without version, when detection answers: the target is
    [v1beta] and the transformer hands the body back untouched. *)
Lemma unversioned_path_keeps_body fuel h p body_ d :
  versionMatch p = None ->
  needsVersionDowngrade h body_ = Ok d ->
  targetVersion h p body_ = Ok V1beta /\
  makeBodyCompatible fuel h body_ V1beta = Ok (body_, h).
Proof.
  intros Hm Hd. split; [ eapply targetVersion_default; eassumption | ].
  apply makeBodyCompatible_other. left; reflexivity.
Qed.

(** The same at the handler: a keyed, non-debug request on a path without
    version, on which detection answers, goes out under [/v1beta] with the
    inbound body itself as data ([POST], [PUT], [PATCH]; other methods send
    none), and the store is untouched. *)
Lemma unversioned_request_forwards_body fuel si req rs h k d :
  path req <> "/favicon.ico" ->
  debug_requested req = false ->
  extractApiKey req = Some k -> qtruthy k = true ->
  versionMatch (path req) = None ->
  needsVersionDowngrade h (body req) = Ok d ->
  exists cfg,
    handler fuel si req rs h = Ok (CallAxios cfg, h) /\
    u_path (ax_url cfg) = targetPath V1beta (path req) /\
    ax_data cfg = if includes ["POST"; "PUT"; "PATCH"] (method req)
                  then body req else None.
Proof.
  intros Hp Hdbg Hk Hq Hm Hd. apply String.eqb_neq in Hp.
  destruct (unversioned_path_keeps_body fuel h (path req) (body req) d Hm Hd)
    as [Hv Hb].
  eexists. split; [ eapply handler_forwards; eassumption | ].
  split; reflexivity.
Qed.

(** Only target [v1] makes the transformer copy and strip. *)
Lemma strips_only_for_v1 fuel h body_ v :
  makeBodyCompatible fuel h body_ v <> Ok (body_, h) -> v = V1.
Proof.
  destruct v; [ reflexivity | ]. intros H. exfalso. apply H.
  apply makeBodyCompatible_other. left; reflexivity.
Qed.

(** C10. The claim is that every request on a path without version is
    negotiated to [v1beta] and sends its body on unchanged.  That holds
    whenever detection answers ([unversioned_path_keeps_body]); but
    [POST /models] with a key and the body [{"contents":[null]}] makes the
    handler raise a [TypeError] during negotiation: no version, no outbound
    request. *)
Theorem handler_throws_on_null_content :
  versionMatch "/models" = None /\
  handler 4 JNull (Samples.post "/models" Samples.null_content) Samples.fresh
          (Samples.store_of Samples.null_content)
  = Throw TypeError.
Proof. split; reflexivity. Qed.

(** ** Debug, authentication and gateway errors *)

(** C6, as the code has it.  For a request that is neither for
    [/favicon.ico] nor a debug request, and from which no key is
    resolvable, the handler answers 401 with the fixed error body and ends
    there: no outbound call is issued and the store is untouched. *)
Theorem no_key_is_401 fuel si req rs h :
  path req <> "/favicon.ico" ->
  debug_requested req = false ->
  key_found (extractApiKey req) = false ->
  exists r,
    handler fuel si req rs h = Ok (Finish r, h) /\
    statusCode r = 401%Z /\
    sent r = Json (JObj [("error",
                          JObj [("code", JNum 401);
                                ("message", JStr "API key not found");
                                ("status", JStr "UNAUTHENTICATED")])]).
Proof.
  intros Hp Hd Hk. apply String.eqb_neq in Hp.
  exists (json_ unauthenticated (status 401 rs)).
  split; [ | split; reflexivity ].
  unfold handler. rewrite Hp, Hd.
  destruct (extractApiKey req) as [ k | ]; [ | reflexivity ].
  cbn in Hk. rewrite Hk. reflexivity.
Qed.

Lemma no_key_is_401_witness :
  exists r,
    handler 0 JNull Samples.no_key Samples.fresh [] = Ok (Finish r, []) /\
    statusCode r = 401%Z /\
    sent r = Json (JObj [("error",
                          JObj [("code", JNum 401);
                                ("message", JStr "API key not found");
                                ("status", JStr "UNAUTHENTICATED")])]).
Proof.
  apply (no_key_is_401 0 JNull Samples.no_key Samples.fresh []);
    [ discriminate | reflexivity | reflexivity ].
Defined.

(** C6 as first stated, for every request: a debug request without a key
    is answered with the debug report and status 200, not with 401. *)
Lemma no_key_debug_request_counterexample :
  ~ (forall fuel si req rs h,
        key_found (extractApiKey req) = false ->
        exists r,
          handler fuel si req rs h = Ok (Finish r, h) /\ statusCode r = 401%Z).
Proof.
  intros H.
  destruct (H 0 JNull Samples.debug_no_key Samples.fresh [] eq_refl) as (r & E & S).
  vm_compute in E. inversion E; subst r. vm_compute in S. discriminate S.
Qed.

(** No carrier, no key: without a vendor header, with an [Authorization]
    value that is absent or neither a bearer token nor free of spaces, and
    without a truthy key parameter, [extractApiKey] returns [null]. *)
Lemma extractApiKey_none req :
  nonempty (assoc "x-goog-api-key" (headers req)) = None ->
  (forall auth, nonempty (assoc "authorization" (headers req)) = Some auth ->
                bearer_match auth = None /\ Str.includes auth " " = true) ->
  first_query_key (query req) queryKeys = None ->
  extractApiKey req = None.
Proof.
  intros Hv Ha Hq. unfold extractApiKey. rewrite Hv.
  destruct (nonempty (assoc "authorization" (headers req))) as [ auth | ];
    [ | exact Hq ].
  destruct (Ha auth eq_refl) as [Hm Hs]. rewrite Hm, Hs. exact Hq.
Qed.

(** C9. Debug comes before authentication: a request other than for
    [/favicon.ico] with [debug=true] in the query or [http-debug: true] in
    the headers gets the debug report, whose [api_key_found] is [false]
    when no key is resolvable, and never the 401 response. *)
Theorem debug_before_authentication fuel si req rs h :
  path req <> "/favicon.ico" ->
  assoc "debug" (query req) = Some (QStr "true")
  \/ assoc "http-debug" (headers req) = Some "true" ->
  exists r,
    handler fuel si req rs h = Ok (Finish r, h) /\
    sent r = Json (JObj [("debug", JBool true);
                         ("method", JStr (method req));
                         ("path", JStr (path req));
                         ("api_key_found", JBool (key_found (extractApiKey req)));
                         ("server_info", si)]) /\
    statusCode r = statusCode rs /\
    sent r <> Json unauthenticated /\
    (key_found (extractApiKey req) = false ->
     assoc "api_key_found"
           match sent r with Json (JObj ms) => ms | _ => [] end
     = Some (JBool false)).
Proof.
  intros Hp Hdbg. apply String.eqb_neq in Hp.
  assert (Hd : debug_requested req = true).
  { unfold debug_requested. destruct Hdbg as [ -> | -> ]; cbn;
      [ reflexivity | apply orb_true_r ]. }
  exists (json_ (debug_body (method req) (path req) (key_found (extractApiKey req)) si) rs).
  split; [ unfold handler; rewrite Hp, Hd; reflexivity | ].
  split; [ reflexivity | ]. split; [ reflexivity | ].
  split; [ discriminate | ].
  intros Hk. cbn. rewrite Hk. reflexivity.
Qed.

Lemma debug_before_authentication_witness :
  exists r,
    handler 0 JNull Samples.debug_no_key Samples.fresh [] = Ok (Finish r, []) /\
    sent r = Json (JObj [("debug", JBool true);
                         ("method", JStr "GET");
                         ("path", JStr "/models");
                         ("api_key_found", JBool false);
                         ("server_info", JNull)]) /\
    sent r <> Json unauthenticated.
Proof.
  destruct (debug_before_authentication 0 JNull Samples.debug_no_key Samples.fresh [])
    as (r & E & S & _ & N & _).
  - discriminate.
  - left. reflexivity.
  - exists r. auto.
Defined.

(** C7. When the outbound call fails and nothing has been sent yet, the
    caller gets 502 with the gateway error body, whose message carries the
    reason; when the headers are already out, the response is left as it
    is.  In the application nothing is sent before the call, so every
    request whose outbound call is rejected is answered with that 502. *)
Theorem connection_failure_is_502 reason proxyRequestId :
  (forall rs,
      headersSent rs = false ->
      statusCode (relay (Rejected reason) proxyRequestId rs) = 502%Z /\
      sent (relay (Rejected reason) proxyRequestId rs)
      = Json (JObj [("error",
                     JObj [("code", JNum 502);
                           ("message",
                            JStr ("Failed to connect to Google Gemini API: " +:+ reason));
                           ("status", JStr "BAD_GATEWAY")])]))
  /\ (forall rs,
        headersSent rs = true -> relay (Rejected reason) proxyRequestId rs = rs)
  /\ (forall fuel si requestId upstream req h cfg h',
        method req <> "OPTIONS" ->
        handler fuel si req (cors_headers requestId (Response false 200 [] NoBody)) h
        = Ok (CallAxios cfg, h') ->
        upstream cfg = Rejected reason ->
        exists r,
          app fuel si requestId proxyRequestId upstream req h = Ok (r, h') /\
          statusCode r = 502%Z /\
          sent r = Json (JObj [("error",
                                JObj [("code", JNum 502);
                                      ("message",
                                       JStr ("Failed to connect to Google Gemini API: "
                                             +:+ reason));
                                      ("status", JStr "BAD_GATEWAY")])])).
Proof.
  split; [ | split ].
  - intros rs Hs. unfold relay, catch. rewrite Hs. cbn. auto.
  - intros rs Hs. unfold relay, catch. rewrite Hs. reflexivity.
  - intros fuel si requestId upstream req h cfg h' Hm Hh Hu.
    apply String.eqb_neq in Hm. unfold app. rewrite Hm, Hh. cbn [bind].
    rewrite Hu. eexists. split; [ reflexivity | ]. cbn. auto.
Qed.

Lemma connection_failure_is_502_witness :
  statusCode (relay (Rejected "ECONNREFUSED") "id" Samples.fresh) = 502%Z /\
  relay (Rejected "ECONNREFUSED") "id" (end_ Samples.fresh) = end_ Samples.fresh /\
  exists r h',
    app 4 JNull "rid" "id" (fun _ => Rejected "ECONNREFUSED")
        (Samples.post "/v1beta/models" Samples.null_content)
        (Samples.store_of Samples.null_content) = Ok (r, h') /\
    statusCode r = 502%Z.
Proof.
  destruct (connection_failure_is_502 "ECONNREFUSED" "id") as (Hnew & Hsent & Happ).
  split; [ apply Hnew; reflexivity | ].
  split; [ apply Hsent; reflexivity | ].
  edestruct (Happ 4 JNull "rid" (fun _ : axios_config => Rejected "ECONNREFUSED")
               (Samples.post "/v1beta/models" Samples.null_content)
               (Samples.store_of Samples.null_content)) as (r & E & S & _).
  - discriminate.
  - reflexivity.
  - reflexivity.
  - exists r. eexists. split; [ exact E | exact S ].
Defined.

(* ====================================================================== *)
(** * Further properties of the code *)

(** ** Objects used as tables *)

Section tables.
Context {A : Type}.
Implicit Types (o : list (string * A)) (k : string).

Lemma assoc_assign k k' (a : A) o :
  assoc k (assign k' a o) = if String.eqb k' k then Some a else assoc k o.
Proof.
  induction o as [ | [k0 a0] o IH ]; cbn.
  - destruct (String.eqb k' k); reflexivity.
  - destruct (String.eqb k0 k') eqn:E0; cbn.
    + apply String.eqb_eq in E0. subst k0.
      destruct (String.eqb k' k); reflexivity.
    + rewrite IH. destruct (String.eqb k0 k) eqn:E1; [ | reflexivity ].
      apply String.eqb_eq in E1. subst k0. rewrite String.eqb_sym, E0. reflexivity.
Qed.

Lemma In_assign k (a : A) o kv :
  In kv (assign k a o) -> In kv o \/ kv = (k, a).
Proof.
  induction o as [ | [k0 a0] o IH ]; cbn.
  - intros [ <- | [] ]. auto.
  - destruct (String.eqb k0 k) eqn:E0; cbn.
    + apply String.eqb_eq in E0. subst k0. intros [ <- | H ]; auto.
    + intros [ <- | H ]; [ auto | ]. destruct (IH H); auto.
Qed.

Lemma assign_absent k (a : A) o : assoc k o = None -> assign k a o = o ++ [(k, a)].
Proof.
  induction o as [ | [k0 a0] o IH ]; cbn; [ reflexivity | ].
  destruct (String.eqb k0 k); [ discriminate | ]. intros H. rewrite IH by exact H.
  reflexivity.
Qed.

Lemma assoc_app k o o' :
  assoc k (o ++ o') = match assoc k o with Some a => Some a | None => assoc k o' end.
Proof.
  induction o as [ | [k0 a0] o IH ]; cbn; [ reflexivity | ].
  destruct (String.eqb k0 k); [ reflexivity | exact IH ].
Qed.

Lemma assoc_filter (keep : string -> bool) k o :
  assoc k (List.filter (fun p => keep p.1) o) = if keep k then assoc k o else None.
Proof.
  induction o as [ | [k0 a0] o IH ]; cbn; [ destruct (keep k); reflexivity | ].
  destruct (keep k0) eqn:Ek0; cbn; destruct (String.eqb k0 k) eqn:E0;
    try (apply String.eqb_eq in E0; subst k0; rewrite Ek0 in *); auto.
Qed.

Lemma fold_remove_key_filter (ks : list string) : forall o,
  fold_left (fun o k => remove_key k o) ks o
  = List.filter (fun p => negb (includes ks p.1)) o.
Proof.
  induction ks as [ | k ks IH ]; intros o; cbn [fold_left].
  - induction o as [ | p o IHo ]; cbn in *; congruence.
  - rewrite IH. unfold remove_key.
    induction o as [ | p o IHo ]; cbn [List.filter]; [ reflexivity | ].
    change (includes (k :: ks) p.1) with (String.eqb p.1 k || includes ks p.1).
    destruct (String.eqb p.1 k); cbn [negb orb List.filter]; [ assumption | ].
    destruct (includes ks p.1); cbn [negb]; congruence.
Qed.

Lemma copy_into_other keep k hs : forall o,
  (forall kv, In kv hs -> keep kv.1 = true -> kv.1 <> k) ->
  assoc k (copy_into keep hs o) = assoc k o.
Proof.
  unfold copy_into.
  induction hs as [ | [k0 a0] hs IH ]; intros o H; cbn; [ reflexivity | ].
  rewrite IH by (intros kv Hin; apply H; right; exact Hin).
  destruct (keep k0) eqn:Ek; [ | reflexivity ].
  rewrite assoc_assign.
  destruct (String.eqb k0 k) eqn:E; [ | reflexivity ].
  apply String.eqb_eq in E. exfalso. apply (H (k0, a0)); [ left; reflexivity | exact Ek | exact E ].
Qed.

Lemma copy_into_In keep hs : forall o kv,
  In kv (copy_into keep hs o) -> In kv o \/ (keep kv.1 = true /\ In kv hs).
Proof.
  unfold copy_into.
  induction hs as [ | [k0 a0] hs IH ]; intros o kv H; cbn in *; [ auto | ].
  destruct (IH _ _ H) as [ Ho | [Hk Hin] ]; [ | auto ].
  destruct (keep k0) eqn:Ek; [ | auto ].
  destruct (In_assign _ _ _ _ Ho) as [ | -> ]; auto.
Qed.

Lemma copy_into_copied keep hs : forall o k a,
  NoDup (map fst hs) -> In (k, a) hs -> keep k = true ->
  assoc k (copy_into keep hs o) = Some a.
Proof.
  induction hs as [ | [k0 a0] hs IH ]; intros o k a Hnd Hin Hk; [ destruct Hin | ].
  cbn in Hnd. apply NoDup_cons in Hnd as [Hnot Hnd].
  destruct Hin as [ [= -> ->] | Hin ].
  - change (assoc k (copy_into keep hs (if keep k then assign k a o else o)) = Some a).
    rewrite Hk, copy_into_other.
    + rewrite assoc_assign, String.eqb_refl. reflexivity.
    + intros kv Hkv _ <-. apply Hnot. apply list_elem_of_In, in_map. exact Hkv.
  - apply (IH _ k a Hnd Hin Hk).
Qed.

End tables.

(** ** The outbound query *)

Lemma queryParams_filter q apiKey :
  queryParams q apiKey
  = List.filter (fun p => negb (includes credentialParams p.1)) q ++ [("key", apiKey)].
Proof.
  unfold queryParams. rewrite fold_remove_key_filter. apply assign_absent.
  rewrite (assoc_filter (fun k => negb (includes credentialParams k))).
  reflexivity.
Qed.

Lemma queryParams_key q apiKey : assoc "key" (queryParams q apiKey) = Some apiKey.
Proof.
  rewrite queryParams_filter, assoc_app,
    (assoc_filter (fun k => negb (includes credentialParams k))).
  reflexivity.
Qed.

(** X1. The outbound query is the inbound one without [key], [api_key],
    [apikey], [token], [access_token] and [debug], in the same order,
    followed by [key] with the extracted key: [key] reads as that key, the
    other five names read as absent, and every other parameter reads as it
    did. *)
Theorem queryParams_spec q apiKey :
  queryParams q apiKey
  = List.filter (fun p => negb (includes credentialParams p.1)) q ++ [("key", apiKey)]
  /\ assoc "key" (queryParams q apiKey) = Some apiKey
  /\ (forall k, includes credentialParams k = true -> k <> "key" ->
                assoc k (queryParams q apiKey) = None)
  /\ (forall k, includes credentialParams k = false ->
                assoc k (queryParams q apiKey) = assoc k q).
Proof.
  pose proof (queryParams_filter q apiKey) as E.
  split; [ exact E | ]. split; [ apply queryParams_key | ]. rewrite E.
  split.
  - intros k Hk Hne.
    rewrite assoc_app, (assoc_filter (fun k => negb (includes credentialParams k))), Hk.
    cbn [negb assoc]. destruct (String.eqb "key" k) eqn:Ek; [ | reflexivity ].
    apply String.eqb_eq in Ek. congruence.
  - intros k Hk.
    rewrite assoc_app, (assoc_filter (fun k => negb (includes credentialParams k))), Hk.
    cbn [negb]. destruct (assoc k q); [ reflexivity | ].
    cbn [assoc]. destruct (String.eqb "key" k) eqn:Ek; [ | reflexivity ].
    apply String.eqb_eq in Ek. subst k. discriminate Hk.
Qed.

Lemma queryParams_spec_witness :
  assoc "token" (queryParams [("token", QStr "T"); ("alt", QStr "sse")] (QStr "T")) = None
  /\ assoc "alt" (queryParams [("token", QStr "T"); ("alt", QStr "sse")] (QStr "T"))
     = Some (QStr "sse").
Proof.
  destruct (queryParams_spec [("token", QStr "T"); ("alt", QStr "sse")] (QStr "T"))
    as (_ & _ & Hgone & Hkept).
  split; [ apply Hgone; [ reflexivity | discriminate ] | apply Hkept; reflexivity ].
Defined.

(** ** The outbound headers *)

Lemma upstreamHeaders_copy hs :
  upstreamHeaders hs
  = copy_into forwarded hs
      [("Content-Type", "application/json");
       ("User-Agent", "Gemini-API-Proxy/Node-No-Limits")].
Proof.
  unfold upstreamHeaders, copy_into.
  generalize [("Content-Type", "application/json");
              ("User-Agent", "Gemini-API-Proxy/Node-No-Limits")].
  induction hs as [ | [k v] hs IH ]; intros base; cbn [fold_left]; [ reflexivity | ].
  rewrite IH. f_equal. unfold forwarded, set_property. cbn [fst snd].
  destruct (includes skipHeaders (Str.toLowerCase k)); cbn [negb andb];
    [ reflexivity | ].
  destruct (String.eqb k "__proto__"); reflexivity.
Qed.

(** X2. No header on the exclusion list goes upstream, in whatever case its
    name is written: every outbound header has a name whose lower-case form
    is none of [host], [connection], [content-length], [x-goog-api-key],
    [authorization], [x-api-key], [api-key], [accept-encoding]. *)
Theorem upstreamHeaders_never_skipped hs :
  Forall (fun kv => includes skipHeaders (Str.toLowerCase kv.1) = false)
         (upstreamHeaders hs).
Proof.
  apply List.Forall_forall. intros kv Hin. rewrite upstreamHeaders_copy in Hin.
  destruct (copy_into_In _ _ _ _ Hin) as [ Hbase | [Hk _] ].
  - cbn in Hbase. destruct Hbase as [ <- | [ <- | [] ] ]; reflexivity.
  - unfold forwarded in Hk. apply andb_true_iff in Hk as [Hk _].
    apply negb_true_iff in Hk. exact Hk.
Qed.

(** X3. Every other inbound header goes upstream with its value, the name
    [__proto__] apart: for inbound headers with distinct names, a header
    whose lower-case name is not on the exclusion list and whose name is
    not [__proto__] is read back from the outbound headers; a header named
    [__proto__] makes no outbound header, since the assignment to that name
    of a plain object makes no property. *)
Theorem upstreamHeaders_forwards hs :
  NoDup (map fst hs) ->
  (forall k v,
      In (k, v) hs ->
      includes skipHeaders (Str.toLowerCase k) = false ->
      k <> "__proto__" ->
      assoc k (upstreamHeaders hs) = Some v)
  /\ assoc "__proto__" (upstreamHeaders hs) = None.
Proof.
  intros Hnd. rewrite upstreamHeaders_copy. split.
  - intros k v Hin Hk Hp.
    apply copy_into_copied; [ exact Hnd | exact Hin | ].
    unfold forwarded. rewrite Hk. apply String.eqb_neq in Hp. rewrite Hp. reflexivity.
  - rewrite copy_into_other; [ reflexivity | ].
    intros kv _ Hkv E. unfold forwarded in Hkv. rewrite E in Hkv.
    rewrite andb_false_r in Hkv. discriminate Hkv.
Qed.

Lemma upstreamHeaders_forwards_witness :
  assoc "x-client" (upstreamHeaders MoreSamples.inbound_headers) = Some "web"
  /\ assoc "__proto__" (upstreamHeaders (("__proto__", "x") :: MoreSamples.inbound_headers))
     = None.
Proof.
  split.
  - destruct (upstreamHeaders_forwards MoreSamples.inbound_headers) as [Hf _].
    + cbn. repeat (apply NoDup_cons_2;
                   [ rewrite list_elem_of_In; cbn; intuition discriminate | ]).
      apply NoDup_nil_2.
    + apply Hf; [ cbn; auto | reflexivity | discriminate ].
  - destruct (upstreamHeaders_forwards (("__proto__", "x") :: MoreSamples.inbound_headers))
      as [_ Hp]; [ | exact Hp ].
    cbn. repeat (apply NoDup_cons_2;
                 [ rewrite list_elem_of_In; cbn; intuition discriminate | ]).
    apply NoDup_nil_2.
Defined.

(** X4. Inbound header names arrive in lower case, so none of them is
    [Content-Type] or [User-Agent] as the defaults are written: both
    defaults always go upstream unchanged, next to any inbound
    [content-type] or [user-agent]. *)
Theorem upstreamHeaders_keeps_defaults hs :
  Forall (fun kv => Str.toLowerCase kv.1 = kv.1) hs ->
  assoc "Content-Type" (upstreamHeaders hs) = Some "application/json" /\
  assoc "User-Agent" (upstreamHeaders hs) = Some "Gemini-API-Proxy/Node-No-Limits".
Proof.
  intros Hlow. rewrite List.Forall_forall in Hlow. rewrite upstreamHeaders_copy.
  split; (rewrite copy_into_other; [ reflexivity | ]);
    intros kv Hin _ E; specialize (Hlow kv Hin); rewrite E in Hlow; discriminate Hlow.
Qed.

Lemma upstreamHeaders_keeps_defaults_witness :
  assoc "Content-Type" (upstreamHeaders MoreSamples.inbound_headers)
  = Some "application/json" /\
  assoc "content-type" (upstreamHeaders MoreSamples.inbound_headers)
  = Some "text/plain".
Proof.
  destruct (upstreamHeaders_keeps_defaults MoreSamples.inbound_headers) as [Hd _].
  - repeat constructor.
  - split; [ exact Hd | reflexivity ].
Defined.

(** ** The outbound path *)

Lemma startsWith_slash p : Str.startsWith p "/" = true -> exists p', p = String "/" p'.
Proof.
  unfold Str.startsWith. destruct p as [ | c p' ]; [ discriminate | ].
  change (String.prefix "/" (String c p'))
    with (if ascii_dec "/" c then String.prefix "" p' else false).
  destruct (ascii_dec "/" c) as [ <- | ]; [ eauto | discriminate ].
Qed.

(** X5. The outbound path always carries the negotiated version: whenever
    the version block yields a version, the path built for it starts with
    [/v1/] for [v1] and with [/v1beta/] for [v1beta]; a path that lacks the
    leading slash gets one. *)
Theorem targetPath_has_negotiated_version h p body_ v :
  targetVersion h p body_ = Ok v ->
  Str.startsWith (targetPath v p) ("/" +:+ version_str v +:+ "/") = true.
Proof.
  unfold targetVersion, versionMatch.
  destruct (Str.startsWith p "/v1/") eqn:E1.
  - intros [= <-]. rewrite targetPath_v1 by exact E1. exact E1.
  - destruct (Str.startsWith p "/v1beta/") eqn:E2.
    + intros [= <-]. unfold targetPath.
      change ("/" +:+ version_str V1beta +:+ "/") with "/v1beta/".
      rewrite E2. exact E2.
    + destruct (needsVersionDowngrade h body_) as [ d | e | ]; cbn; try discriminate.
      intros Hv.
      assert (v = V1beta) by (unfold DEFAULT_API_VERSION in Hv; destruct d; congruence).
      subst v. clear Hv.
      unfold targetPath.
      change ("/" +:+ version_str V1beta +:+ "/") with "/v1beta/".
      rewrite E1, E2. cbn [negb andb].
      destruct (Str.startsWith p "/") eqn:E0.
      * destruct (startsWith_slash p E0) as (p' & ->).
        unfold Str.startsWith. apply String.prefix_correct. destruct p'; reflexivity.
      * unfold Str.startsWith. apply String.prefix_correct. destruct p; reflexivity.
Qed.

Lemma targetPath_has_negotiated_version_witness :
  Str.startsWith (targetPath V1beta "models/gemini:generateContent") "/v1beta/" = true.
Proof.
  exact (targetPath_has_negotiated_version [] "models/gemini:generateContent"
           None V1beta eq_refl).
Defined.

(** ** What the handler sends upstream *)

(** X6. The handler issues the outbound call only for a request that is not
    for [/favicon.ico], is not a debug request and has a truthy key; the
    call then goes to the fixed upstream host with the inbound method, on
    the path built for the negotiated version, with the extracted key as
    the [key] parameter and the filtered headers, and it carries data only
    for [POST], [PUT] and [PATCH]. *)
Theorem handler_call_inv fuel si req rs h cfg h' :
  handler fuel si req rs h = Ok (CallAxios cfg, h') ->
  path req <> "/favicon.ico" /\
  debug_requested req = false /\
  (exists k, extractApiKey req = Some k /\ qtruthy k = true /\
             assoc "key" (u_query (ax_url cfg)) = Some k) /\
  u_host (ax_url cfg) = "https://generativelanguage.googleapis.com" /\
  ax_method cfg = method req /\
  (exists v, targetVersion h (path req) (body req) = Ok v /\
             u_path (ax_url cfg) = targetPath v (path req)) /\
  ax_headers cfg = upstreamHeaders (headers req) /\
  (includes ["POST"; "PUT"; "PATCH"] (method req) = false -> ax_data cfg = None).
Proof.
  unfold handler.
  destruct (String.eqb (path req) "/favicon.ico") eqn:Ef; [ discriminate | ].
  destruct (debug_requested req) eqn:Ed; [ discriminate | ].
  destruct (extractApiKey req) as [ k | ] eqn:Ek; [ | discriminate ].
  destruct (qtruthy k) eqn:Eq; [ | discriminate ].
  destruct (targetVersion h (path req) (body req)) as [ v | e | ] eqn:Ev;
    cbn [bind]; try discriminate.
  destruct (makeBodyCompatible fuel h (body req) v) as [ [cb h1] | e | ] eqn:Eb;
    cbn [bind]; try discriminate.
  intros [= <- <-]. cbn.
  split; [ apply String.eqb_neq; exact Ef | ]. split; [ reflexivity | ].
  split; [ exists k; split; [ reflexivity | split;
                                 [ exact Eq | apply queryParams_key ] ] | ].
  split; [ reflexivity | ]. split; [ reflexivity | ].
  split; [ exists v; auto | ]. split; [ reflexivity | ].
  intros Hm. rewrite Hm. reflexivity.
Qed.

Lemma handler_call_inv_witness :
  exists cfg h',
    handler 4 JNull MoreSamples.token_request Samples.fresh [] = Ok (CallAxios cfg, h') /\
    assoc "key" (u_query (ax_url cfg)) = Some (QStr "T") /\
    ax_data cfg = None.
Proof.
  destruct (handler 4 JNull MoreSamples.token_request Samples.fresh [])
    as [ [ [ r | cfg ] h' ] | e | ] eqn:E; try (vm_compute in E; discriminate E).
  exists cfg, h'. split; [ reflexivity | ].
  destruct (handler_call_inv _ _ _ _ _ _ _ E)
    as (_ & _ & (k & Hk & _ & Hq) & _ & _ & _ & _ & Hd).
  split; [ | apply Hd; reflexivity ].
  cbn in Hk. injection Hk as <-. exact Hq.
Defined.

(** ** The relay of the upstream response *)

Lemma relay_fold (keep : string -> bool) hs : forall rs,
  fold_left (fun (r : response) (kv : string * string) =>
               if keep kv.1 then setHeader kv.1 kv.2 r else r) hs rs
  = Response (headersSent rs) (statusCode rs)
             (copy_into keep hs (resHeaders rs)) (sent rs).
Proof.
  unfold copy_into.
  induction hs as [ | [k v] hs IH ]; intros rs; cbn; [ destruct rs; reflexivity | ].
  rewrite IH. destruct (keep k); reflexivity.
Qed.

(** The response after the headers of a resolved call are copied. *)
Lemma relay_resolved_unfold code hs data proxyRequestId rs :
  headersSent rs = false ->
  relay (Resolved code hs data) proxyRequestId rs
  = let rs2 := Response false (statusCode rs)
                 (assign "X-Proxy-Request-ID" proxyRequestId
                         (copy_into relayed hs (resHeaders rs)))
                 (sent rs) in
    if valid_status code then pipe data (status code rs2)
    else catch (invalid_status_message code) rs2.
Proof.
  intros Hs. unfold relay. rewrite Hs.
  change (fun r kv => if includes safeHeaders (Str.toLowerCase kv.1)
                         || Str.startsWith kv.1 "x-goog-"
                      then setHeader kv.1 kv.2 r else r)
    with (fun (r : response) (kv : string * string) =>
            if relayed kv.1 then setHeader kv.1 kv.2 r else r).
  rewrite relay_fold, Hs. reflexivity.
Qed.

Lemma relay_resolved_headers code hs data proxyRequestId rs :
  headersSent rs = false ->
  resHeaders (relay (Resolved code hs data) proxyRequestId rs)
  = assign "X-Proxy-Request-ID" proxyRequestId (copy_into relayed hs (resHeaders rs)).
Proof.
  intros Hs. rewrite relay_resolved_unfold by exact Hs. cbv zeta.
  destruct (valid_status code); reflexivity.
Qed.

(** X7. An upstream response is relayed under the header allow-list, and
    its status decides the rest.  Nothing being sent yet, the response
    carries the fresh [X-Proxy-Request-ID], and every header of it is one
    that was there before the relay, that identifier, or an upstream header
    on the allow-list or with the [x-goog-] prefix: all other upstream
    headers are dropped.  A status from 100 to 999, 4xx and 5xx included,
    goes to the caller as it is, with the chunks of the body; any other
    status makes [res.status] throw, and the caller gets the 502 gateway
    error that names the status. *)
Theorem relay_resolved code hs data proxyRequestId rs :
  headersSent rs = false ->
  let r := relay (Resolved code hs data) proxyRequestId rs in
  assoc "X-Proxy-Request-ID" (resHeaders r) = Some proxyRequestId /\
  (forall kv, In kv (resHeaders r) ->
              In kv (resHeaders rs)
              \/ kv = ("X-Proxy-Request-ID", proxyRequestId)
              \/ (relayed kv.1 = true /\ In kv hs)) /\
  ((100 <= code <= 999)%Z -> statusCode r = code /\ sent r = Piped data) /\
  ((code < 100 \/ 999 < code)%Z ->
   statusCode r = 502%Z /\
   sent r = Json (bad_gateway
                    ("Invalid status code: " +:+ NilZero.string_of_int (Z.to_int code)
                     +:+ ". Status code must be greater than 99 and less than 1000."))).
Proof.
  intros Hs r. subst r.
  split; [ rewrite relay_resolved_headers by exact Hs; rewrite assoc_assign;
           reflexivity | ].
  split.
  - intros kv Hin. rewrite relay_resolved_headers in Hin by exact Hs.
    destruct (In_assign _ _ _ _ Hin) as [ Hc | -> ]; [ | auto ].
    destruct (copy_into_In _ _ _ _ Hc); auto.
  - rewrite relay_resolved_unfold by exact Hs. cbv zeta. split; intros Hc.
    + assert (Hv : valid_status code = true)
        by (unfold valid_status; apply andb_true_iff; split; apply Z.leb_le; lia).
      rewrite Hv. split; reflexivity.
    + assert (Hv : valid_status code = false).
      { unfold valid_status. apply andb_false_iff.
        destruct Hc; [ left | right ]; apply Z.leb_gt; lia. }
      rewrite Hv. split; reflexivity.
Qed.

Lemma relay_resolved_witness :
  statusCode (relay (Resolved 429 MoreSamples.upstream_headers ["a"; "b"])
                    "id" Samples.fresh) = 429%Z /\
  statusCode (relay (Resolved 99 MoreSamples.upstream_headers ["a"; "b"])
                    "id" Samples.fresh) = 502%Z /\
  assoc "server"
        (resHeaders (relay (Resolved 429 MoreSamples.upstream_headers ["a"; "b"])
                           "id" Samples.fresh)) = None.
Proof.
  destruct (relay_resolved 429 MoreSamples.upstream_headers ["a"; "b"] "id"
              Samples.fresh eq_refl) as (_ & _ & Hok & _).
  destruct (relay_resolved 99 MoreSamples.upstream_headers ["a"; "b"] "id"
              Samples.fresh eq_refl) as (_ & _ & _ & Hbad).
  split; [ apply Hok; lia | ].
  split; [ apply Hbad; lia | reflexivity ].
Defined.

(** X8. An upstream header on the allow-list, or with the [x-goog-] prefix,
    is set on the response with its value, and for a status from 100 to 999
    that response is the relayed one: same status, body piped (upstream
    header names being distinct, nothing being sent yet). *)
Theorem relay_copies_allowed code hs data proxyRequestId rs k v :
  headersSent rs = false ->
  (100 <= code <= 999)%Z ->
  NoDup (map fst hs) ->
  In (k, v) hs ->
  relayed k = true ->
  let r := relay (Resolved code hs data) proxyRequestId rs in
  assoc k (resHeaders r) = Some v /\ statusCode r = code /\ sent r = Piped data.
Proof.
  intros Hs Hc Hnd Hin Hk r. subst r. split.
  - rewrite relay_resolved_headers by exact Hs. rewrite assoc_assign.
    destruct (String.eqb "X-Proxy-Request-ID" k) eqn:E.
    + apply String.eqb_eq in E. subst k. discriminate Hk.
    + apply copy_into_copied; assumption.
  - rewrite relay_resolved_unfold by exact Hs. cbv zeta.
    assert (Hv : valid_status code = true)
      by (unfold valid_status; apply andb_true_iff; split; apply Z.leb_le; lia).
    rewrite Hv. split; reflexivity.
Qed.

Lemma relay_copies_allowed_witness :
  assoc "x-goog-trace"
        (resHeaders (relay (Resolved 200 MoreSamples.upstream_headers [])
                           "id" Samples.fresh)) = Some "t1".
Proof.
  apply (relay_copies_allowed 200 MoreSamples.upstream_headers [] "id" Samples.fresh).
  - reflexivity.
  - lia.
  - cbn. repeat (apply NoDup_cons_2;
                 [ rewrite list_elem_of_In; cbn; intuition discriminate | ]).
    apply NoDup_nil_2.
  - cbn. auto.
  - reflexivity.
Defined.

(** A header the relay does not copy, other than its own identifier, is
    after the relay what it was before, whatever the upstream answers. *)
Lemma relay_keeps_header out proxyRequestId rs k :
  relayed k = false -> k <> "X-Proxy-Request-ID" ->
  assoc k (resHeaders (relay out proxyRequestId rs)) = assoc k (resHeaders rs).
Proof.
  intros Hk Hne. destruct (headersSent rs) eqn:Hs.
  - destruct out; unfold relay, catch; rewrite Hs; reflexivity.
  - destruct out as [ code hs data | message ].
    + rewrite relay_resolved_headers by exact Hs. rewrite assoc_assign.
      destruct (String.eqb "X-Proxy-Request-ID" k) eqn:E;
        [ apply String.eqb_eq in E; congruence | ].
      apply copy_into_other. intros kv _ Hkv <-. congruence.
    + unfold relay, catch. rewrite Hs. reflexivity.
Qed.

Lemma handler_finish_headers fuel si req rs h r h' :
  handler fuel si req rs h = Ok (Finish r, h') -> resHeaders r = resHeaders rs.
Proof.
  unfold handler.
  destruct (String.eqb (path req) "/favicon.ico"); [ intros [= <- _]; reflexivity | ].
  destruct (debug_requested req); [ intros [= <- _]; reflexivity | ].
  destruct (extractApiKey req) as [ k | ]; [ | intros [= <- _]; reflexivity ].
  destruct (qtruthy k); [ | intros [= <- _]; reflexivity ].
  destruct (targetVersion h (path req) (body req)) as [ v | e | ];
    cbn [bind]; try discriminate.
  destruct (makeBodyCompatible fuel h (body req) v) as [ [cb h1] | e | ];
    cbn [bind]; discriminate.
Qed.

(** X9. Every response of the application carries the CORS headers and the
    request identifier of the middleware: the preflight answer, the local
    answers of the handler (404, debug report, 401), the relayed upstream
    response and the 502, whatever headers the upstream sends. *)
Theorem app_response_has_cors fuel si requestId proxyRequestId upstream req h r h' :
  app fuel si requestId proxyRequestId upstream req h = Ok (r, h') ->
  assoc "X-Request-ID" (resHeaders r) = Some requestId /\
  Forall (fun kv => assoc kv.1 (resHeaders r) = Some kv.2) corsHeaders.
Proof.
  unfold app. set (rs := cors_headers requestId (Response false 200 [] NoBody)).
  assert (Hrs : assoc "X-Request-ID" (resHeaders rs) = Some requestId /\
                Forall (fun kv => assoc kv.1 (resHeaders rs) = Some kv.2) corsHeaders).
  { split; [ reflexivity | repeat constructor ]. }
  destruct (String.eqb (method req) "OPTIONS").
  - intros [= <- _]. exact Hrs.
  - destruct (handler fuel si req rs h) as [ [a h1] | e | ] eqn:Eh;
      cbn [bind]; try discriminate.
    destruct a as [ r0 | cfg ]; intros [= <- _].
    + rewrite (handler_finish_headers _ _ _ _ _ _ _ Eh). exact Hrs.
    + destruct Hrs as [Hid Hcors]. split.
      * rewrite relay_keeps_header; [ exact Hid | reflexivity | discriminate ].
      * rewrite List.Forall_forall in *. intros kv Hin.
        rewrite relay_keeps_header; [ apply Hcors; exact Hin | | ];
          cbn in Hin; destruct Hin as [ <- | [ <- | [ <- | [] ] ] ];
          first [ reflexivity | discriminate ].
Qed.

Lemma app_response_has_cors_witness :
  exists r h',
    app 4 JNull "rid" "pid"
        (fun _ => Resolved 200 MoreSamples.upstream_headers ["x"])
        (Samples.post "/v1beta/models" Samples.null_content)
        (Samples.store_of Samples.null_content) = Ok (r, h') /\
    assoc "Access-Control-Allow-Origin" (resHeaders r) = Some "*".
Proof.
  eexists. eexists. split; [ reflexivity | ].
  destruct (app_response_has_cors 4 JNull "rid" "pid"
              (fun _ : axios_config => Resolved 200 MoreSamples.upstream_headers ["x"])
              (Samples.post "/v1beta/models" Samples.null_content)
              (Samples.store_of Samples.null_content) _ _ eq_refl) as [_ Hc].
  rewrite List.Forall_forall in Hc.
  apply (Hc ("Access-Control-Allow-Origin", "*")). left. reflexivity.
Defined.

(** ** Feature detection on well-formed bodies *)

Lemma truthy_repr h v j : repr h v j -> truthy v = jtruthy j.
Proof. inversion 1; reflexivity. Qed.

Lemma assoc_repr h k (props : list (string * value)) : forall (ms : list (string * json)),
  map fst props = map fst ms ->
  Forall2 (repr h) (map snd props) (map snd ms) ->
  repr_opt h (assoc k props) (assoc k ms).
Proof.
  induction props as [ | [k0 v0] props IH ]; intros [ | [k1 j1] ms ] Hk Hv;
    cbn in *; try discriminate; [ exact I | ].
  injection Hk as -> Hk. inversion Hv; subst.
  destruct (String.eqb k1 k); [ assumption | apply IH; assumption ].
Qed.

(** A property read on a value that is not [null] does not throw, and
    reads the member of the tree. *)
Lemma get_repr h v j k :
  repr h v j -> is_null j = false ->
  exists o, get h v k = Ok o /\ repr_opt h o (member j k).
Proof.
  inversion 1; subst; cbn; try discriminate; intros _;
    try (exists None; split; [ reflexivity | exact I ]).
  - match goal with H : h !! _ = Some _ |- _ => rewrite H end.
    exists None. split; [ reflexivity | exact I ].
  - match goal with H : h !! _ = Some _ |- _ => rewrite H end.
    eexists. split; [ reflexivity | ]. apply assoc_repr; assumption.
Qed.

Lemma truthy_opt_repr h o oj :
  repr_opt h o oj ->
  truthy_opt o = match oj with Some x => jtruthy x | None => false end.
Proof.
  destruct o, oj; cbn; try contradiction; [ apply truthy_repr | reflexivity ].
Qed.

Lemma any_param_repr h v j params :
  repr h v j -> is_null j = false ->
  any_param h v params
  = Ok (existsb (fun param => match member j param with
                               | Some x => jtruthy x
                               | None => false
                               end) params).
Proof.
  intros Hr Hn. induction params as [ | p params IH ]; cbn; [ reflexivity | ].
  destruct (get_repr h v j p Hr Hn) as (o & -> & Ho). cbn [bind].
  rewrite (truthy_opt_repr _ _ _ Ho).
  destruct (match member j p with Some x => jtruthy x | None => false end);
    [ reflexivity | exact IH ].
Qed.

Lemma as_array_repr h o oj :
  repr_opt h o oj ->
  match as_array h o with
  | Some items => Forall2 (repr h) items (elements oj)
  | None => elements oj = []
  end.
Proof.
  destruct o as [ v | ], oj as [ j | ]; cbn; try contradiction; [ | reflexivity ].
  inversion 1; subst; cbn; try reflexivity;
    match goal with H : h !! _ = Some _ |- _ => rewrite H end;
    [ assumption | reflexivity ].
Qed.

Lemma any_part_repr h parts : forall js,
  Forall2 (repr h) parts js ->
  forallb (fun part => negb (is_null part)) js = true ->
  any_part h parts = Ok (existsb flagged js).
Proof.
  induction parts as [ | part parts IH ]; intros js Hr Hn; inversion Hr; subst;
    cbn [any_part existsb forallb] in *; [ reflexivity | ].
  apply andb_true_iff in Hn as [Hj Hn]. apply negb_true_iff in Hj.
  rewrite (any_param_repr h part _ unsupportedInV1) by eassumption. cbn [bind].
  fold (flagged y). destruct (flagged y); [ reflexivity | ].
  apply IH; assumption.
Qed.

Lemma any_content_repr h contents : forall js,
  Forall2 (repr h) contents js ->
  forallb (fun content =>
             negb (is_null content)
             && forallb (fun part => negb (is_null part))
                        (elements (member content "parts"))) js = true ->
  any_content h contents
  = Ok (existsb (fun content => existsb flagged (elements (member content "parts"))) js).
Proof.
  induction contents as [ | content contents IH ]; intros js Hr Hn; inversion Hr; subst;
    cbn [any_content existsb forallb] in *; [ reflexivity | ].
  apply andb_true_iff in Hn as [Hj Hn]. apply andb_true_iff in Hj as [Hj Hp].
  apply negb_true_iff in Hj.
  destruct (get_repr h content y "parts") as (o & -> & Ho); [ assumption .. | ].
  cbn [bind]. pose proof (as_array_repr h o _ Ho) as Ha.
  destruct (as_array h o) as [ ps | ].
  - rewrite (any_part_repr h ps _ Ha Hp). cbn [bind].
    destruct (existsb flagged (elements (member y "parts"))); [ reflexivity | ].
    apply IH; assumption.
  - rewrite Ha. cbn [bind existsb orb]. apply IH; assumption.
Qed.

(** X10. On a body in which no element of [contents] and no element of a
    [parts] array is [null], the detection does not throw and answers
    exactly this: the body is an object or array, and it has a truthy
    [systemInstruction], [tool_config] or [tool_calls] as a direct member,
    or some element of some [contents[i].parts] has one.  A flag that is
    present but falsy (empty string, 0, false, null) does not count, nor
    does one nested deeper. *)
Theorem needsVersionDowngrade_detects h b j :
  repr h b j ->
  null_free j = true ->
  needsVersionDowngrade h (Some b) = Ok (detects j).
Proof.
  intros Hr Hn. unfold needsVersionDowngrade.
  destruct (is_object b) eqn:Eo.
  - assert (Ht : truthy b = true) by (destruct b; try discriminate; reflexivity).
    rewrite Ht. cbn [negb orb].
    assert (Hj : is_null j = false) by (inversion Hr; subst; try discriminate; reflexivity).
    rewrite (any_param_repr h b j unsupportedInV1 Hr Hj). cbn [bind].
    fold (flagged j).
    assert (Hd : detects j
                 = flagged j
                   || existsb (fun content =>
                                 existsb flagged (elements (member content "parts")))
                              (elements (member j "contents")))
      by (inversion Hr; subst; try discriminate; reflexivity).
    rewrite Hd. destruct (flagged j); [ reflexivity | ]. cbn [orb].
    destruct (get_repr h b j "contents" Hr Hj) as (o & -> & Ho). cbn [bind].
    pose proof (as_array_repr h o _ Ho) as Ha.
    destruct (as_array h o) as [ cs | ].
    + apply any_content_repr; assumption.
    + rewrite Ha. reflexivity.
  - rewrite orb_true_r. inversion Hr; subst; try discriminate; reflexivity.
Qed.

Lemma needsVersionDowngrade_detects_witness :
  needsVersionDowngrade (Samples.store_of MoreSamples.flagged_part)
                        (Some (Samples.body_of MoreSamples.flagged_part)) = Ok true.
Proof.
  apply (needsVersionDowngrade_detects (Samples.store_of MoreSamples.flagged_part)
           (Samples.body_of MoreSamples.flagged_part) MoreSamples.flagged_part).
  - apply parse_repr.
  - reflexivity.
Defined.

(** ** Field stripping on any store *)

Lemma cell_shrinks_refl fields c : cell_shrinks fields c c.
Proof. destruct c; cbn; auto. Qed.

Lemma cell_shrinks_trans fields c1 c2 c3 :
  cell_shrinks fields c1 c2 -> cell_shrinks fields c2 c3 -> cell_shrinks fields c1 c3.
Proof.
  destruct c1, c2, c3; cbn; try contradiction; [ | congruence ].
  intros [H1 H2] [H3 H4]. split; auto.
Qed.

Lemma shrinks_refl fields h : shrinks fields h h.
Proof. split; [ reflexivity | ]. intros l c H. exists c. auto using cell_shrinks_refl. Qed.

Lemma shrinks_trans fields h1 h2 h3 :
  shrinks fields h1 h2 -> shrinks fields h2 h3 -> shrinks fields h1 h3.
Proof.
  intros [L1 H1] [L2 H2]. split; [ congruence | ].
  intros l c Hc. destruct (H1 l c Hc) as (c2 & Hc2 & S1).
  destruct (H2 l c2 Hc2) as (c3 & Hc3 & S2).
  exists c3. eauto using cell_shrinks_trans.
Qed.

Lemma shrinks_delete fields h l props :
  h !! l = Some (Obj props) ->
  shrinks fields h (<[l := Obj (delete_fields fields props)]> h).
Proof.
  intros Hl. split; [ apply length_insert | ].
  intros l' c Hc. destruct (decide (l' = l)) as [ -> | Hne ].
  - rewrite Hl in Hc. injection Hc as <-.
    exists (Obj (delete_fields fields props)).
    split; [ apply list_lookup_insert_eq; eapply lookup_lt_Some; eassumption | ].
    rewrite delete_fields_filter. cbn. split; intros kv Hin.
    + apply List.filter_In in Hin. tauto.
    + intros Hk. apply List.filter_In. rewrite Hk. auto.
  - exists c. rewrite list_lookup_insert_ne by congruence.
    auto using cell_shrinks_refl.
Qed.

Lemma forEach_shrinks {A} fields (f : A -> heap -> result heap) :
  (forall x h h', f x h = Ok h' -> shrinks fields h h') ->
  forall xs h h', forEach f xs h = Ok h' -> shrinks fields h h'.
Proof.
  intros Hf. induction xs as [ | x xs IH ]; intros h h'; cbn.
  - intros [= <-]. apply shrinks_refl.
  - destruct (f x h) as [ h1 | e | ] eqn:E; cbn; try discriminate.
    intros H. eapply shrinks_trans; eauto.
Qed.

(** X11. On any store, shared or cyclic cells included, a call of
    [removeUnsupportedFields] that returns has only deleted: the store has
    the same size, every array cell is unchanged, and every object cell is
    an object that has lost no property named outside [fields] and has no
    property it did not have; no value is rewritten. *)
Theorem removeUnsupportedFields_only_deletes fuel : forall obj fields h h',
  removeUnsupportedFields fuel obj fields h = Ok h' ->
  shrinks fields h h'.
Proof.
  induction fuel as [ | fuel IH ]; intros obj fields h h'; cbn; [ discriminate | ].
  destruct obj as [ | b | n | s | l ]; try (intros [= <-]; apply shrinks_refl).
  destruct (h !! l) as [ [ props | items ] | ] eqn:El; [ | | discriminate ].
  - intros H. eapply shrinks_trans; [ apply shrinks_delete; exact El | ].
    eapply forEach_shrinks; [ | exact H ]. intros x h0 h1. apply IH.
  - apply forEach_shrinks. intros x h0 h1. apply IH.
Qed.

Lemma removeUnsupportedFields_only_deletes_witness :
  exists h',
    removeUnsupportedFields 3 (VRef 1) unsupportedFields MoreSamples.shared_store = Ok h' /\
    h' !! 1 = Some (Arr [VRef 0; VRef 0]) /\
    h' !! 0 = Some (Obj [("text", VStr "hi")]).
Proof.
  eexists. split; [ reflexivity | ].
  pose proof (removeUnsupportedFields_only_deletes 3 (VRef 1) unsupportedFields
                MoreSamples.shared_store _ eq_refl) as [_ Hs].
  destruct (Hs 1 _ eq_refl) as (c' & Hc' & Hsh).
  split; [ | reflexivity ].
  destruct c' as [ | items' ]; cbn in Hsh; [ contradiction | ]. subst items'. exact Hc'.
Defined.

(** ** The transformer on bodies without restricted fields *)

Lemma strip_clean fields j : mentions fields j = false -> strip fields j = j.
Proof.
  induction j as [ | b | n | s | js IH | ms IH ] using json_ind; cbn [strip mentions];
    try reflexivity; intros H; f_equal.
  - induction IH as [ | j js Hj _ IHjs ]; cbn in *; [ reflexivity | ].
    apply orb_false_iff in H as [H1 H2]. rewrite Hj, IHjs by assumption. reflexivity.
  - rewrite strip_members.
    induction ms as [ | [k j] ms IHms ]; cbn in *; [ reflexivity | ].
    inversion IH; subst.
    apply orb_false_iff in H as [Hhead Htail].
    apply orb_false_iff in Hhead as [Hk Hj].
    rewrite Hk. cbn. rewrite IHms by assumption.
    match goal with Hs : mentions fields j = false -> _ |- _ => rewrite (Hs Hj) end.
    reflexivity.
Qed.

(** X12. For target [v1], a body without any restricted field, and whose
    numbers JSON prints back as they are, comes out as a copy that stands
    for the same tree: the transformer changes nothing it does not have to. *)
Theorem makeBodyCompatible_v1_clean_body fuel h b j :
  repr h b j -> jdepth j <= fuel ->
  mentions unsupportedFields j = false ->
  printed j = j ->
  exists b' h',
    makeBodyCompatible fuel h (Some b) V1 = Ok (Some b', h') /\
    repr h' b' j.
Proof.
  intros Hr Hd Hm Hp.
  destruct (makeBodyCompatible_spec fuel h b j Hr Hd)
    as (b' & h' & j' & E & R & _ & Hj & _ & _).
  exists b', h'. split; [ exact E | ].
  replace j with j'; [ exact R | ].
  rewrite Hj. destruct (truthy b); [ | reflexivity ].
  rewrite Hp. apply strip_clean. exact Hm.
Qed.

Lemma makeBodyCompatible_v1_clean_body_witness :
  exists b' h',
    makeBodyCompatible 6 (Samples.store_of MoreSamples.clean_body)
                       (Some (Samples.body_of MoreSamples.clean_body)) V1
    = Ok (Some b', h') /\
    repr h' b' MoreSamples.clean_body.
Proof.
  apply (makeBodyCompatible_v1_clean_body 6 (Samples.store_of MoreSamples.clean_body)
           (Samples.body_of MoreSamples.clean_body) MoreSamples.clean_body).
  - apply parse_repr.
  - vm_compute. lia.
  - reflexivity.
  - reflexivity.
Defined.

(** X13. The copy made for [v1] shares no cell with the store before the
    call: for a truthy body the result is an owned tree that lies entirely
    in the cells the call has appended, so a later write through the result
    cannot reach the input. *)
Theorem makeBodyCompatible_v1_copy_is_fresh fuel h b j :
  repr h b j -> jdepth j <= fuel -> truthy b = true ->
  exists b' h',
    makeBodyCompatible fuel h (Some b) V1 = Ok (Some b', h') /\
    length h <= length h' /\
    (forall l c, h !! l = Some c -> h' !! l = Some c) /\
    tree h' b' (strip unsupportedFields (printed j)) (length h) (length h').
Proof.
  intros Hr Hd Ht.
  destruct (makeBodyCompatible_copy fuel h b j Hr Hd Ht) as (b' & h' & E & Hp & T).
  exists b', h'. split; [ exact E | ].
  split; [ eapply tree_bounds; exact T | ]. split; [ exact Hp | exact T ].
Qed.

Lemma makeBodyCompatible_v1_copy_is_fresh_witness :
  exists b' h',
    makeBodyCompatible 6 (Samples.store_of Samples.with_tools)
                       (Some (Samples.body_of Samples.with_tools)) V1
    = Ok (Some b', h') /\
    length (Samples.store_of Samples.with_tools) <= length h'.
Proof.
  destruct (makeBodyCompatible_v1_copy_is_fresh 6 (Samples.store_of Samples.with_tools)
              (Samples.body_of Samples.with_tools) Samples.with_tools)
    as (b' & h' & E & L & _).
  - apply parse_repr.
  - vm_compute. lia.
  - reflexivity.
  - exists b', h'. auto.
Defined.

(** ** Edge cases of the credential extractor *)

Lemma first_query_key_priority q pre : forall k post v,
  assoc k q = Some v -> qtruthy v = true ->
  Forall (fun k' => match assoc k' q with
                    | Some v' => qtruthy v' = false
                    | None => True
                    end) pre ->
  first_query_key q (pre ++ k :: post) = Some v.
Proof.
  induction pre as [ | k0 pre IH ]; intros k post v Hk Hv Hpre; cbn.
  - rewrite Hk, Hv. reflexivity.
  - inversion Hpre as [ | ? ? H0 Hrest ]; subst.
    destruct (assoc k0 q) as [ v0 | ]; [ rewrite H0 | ]; apply IH; assumption.
Qed.

(** X14. Without a vendor header and without an [Authorization] value, the
    key is the value of the first of [key], [api_key], [apikey], [token],
    [access_token] that is present and not empty: an empty [key=] does not
    stop the search, it falls through to the next name. *)
Theorem extractApiKey_query_priority req pre k post v :
  nonempty (assoc "x-goog-api-key" (headers req)) = None ->
  nonempty (assoc "authorization" (headers req)) = None ->
  queryKeys = pre ++ k :: post ->
  assoc k (query req) = Some v -> qtruthy v = true ->
  Forall (fun k' => match assoc k' (query req) with
                    | Some v' => qtruthy v' = false
                    | None => True
                    end) pre ->
  extractApiKey req = Some v.
Proof.
  intros Hv Ha Hkeys Hk Ht Hpre. unfold extractApiKey. rewrite Hv, Ha, Hkeys.
  apply first_query_key_priority; assumption.
Qed.

Lemma extractApiKey_query_priority_witness :
  extractApiKey MoreSamples.empty_key_param = Some (QStr "abc").
Proof.
  apply (extractApiKey_query_priority MoreSamples.empty_key_param
           ["key"] "api_key" ["apikey"; "token"; "access_token"]);
    try reflexivity.
  repeat constructor.
Defined.

Lemma trim_all_ws s : Str.all Str.is_ws s = true -> Str.trim s = "".
Proof.
  intros H. unfold Str.trim.
  assert (E : Str.trimStart s = "").
  { induction s as [ | a s IH ]; cbn in *; [ reflexivity | ].
    apply andb_true_iff in H as [Ha Hs]. rewrite Ha. auto. }
  rewrite E. reflexivity.
Qed.

(** X15. The [Authorization] header is consulted before the query, and a
    bearer token that is only white space counts as found there: the
    extractor returns the empty key, the query is never looked at, and the
    handler answers 401 even when the query carries a key. *)
Theorem blank_bearer_blocks_query_key fuel si req rs h b w tok :
  nonempty (assoc "x-goog-api-key" (headers req)) = None ->
  assoc "authorization" (headers req) = Some (b +:+ w +:+ tok) ->
  Str.toLowerCase b = "bearer" ->
  w <> "" -> Str.all Str.is_ws w = true ->
  tok <> "" -> Str.all Str.is_ws tok = true ->
  Str.all (fun c => negb (Str.is_line_terminator c)) tok = true ->
  extractApiKey req = Some (QStr "") /\
  (path req <> "/favicon.ico" -> debug_requested req = false ->
   exists r, handler fuel si req rs h = Ok (Finish r, h) /\ statusCode r = 401%Z).
Proof.
  intros Hv Ha Hb Hw Hws Htok Htws Hlt.
  assert (E : extractApiKey req = Some (QStr "")).
  { unfold extractApiKey. rewrite Hv, Ha.
    destruct (bearer_match_token b w tok Hb Hw Hws Htok Hlt) as (g & Hg & Ht).
    rewrite nonempty_some by (destruct b; discriminate).
    rewrite Hg, Ht, trim_all_ws by exact Htws. reflexivity. }
  split; [ exact E | ].
  intros Hp Hd. apply String.eqb_neq in Hp.
  exists (json_ unauthenticated (status 401 rs)).
  split; [ | reflexivity ].
  unfold handler. rewrite Hp, Hd, E. reflexivity.
Qed.

Lemma blank_bearer_blocks_query_key_witness :
  extractApiKey MoreSamples.blank_bearer = Some (QStr "") /\
  exists r,
    handler 0 JNull MoreSamples.blank_bearer Samples.fresh [] = Ok (Finish r, []) /\
    statusCode r = 401%Z.
Proof.
  destruct (blank_bearer_blocks_query_key 0 JNull MoreSamples.blank_bearer
              Samples.fresh [] "Bearer" " " (String (ascii_of_nat 160) ""))
    as [He Hh]; try reflexivity; try discriminate.
  split; [ exact He | ]. apply Hh; [ discriminate | reflexivity ].
Defined.

(** ** When the detection throws *)

(** X16. The detection throws on a [null] element of [contents] in
    general: for an object body without a truthy flag of its own whose
    [contents] is an array that starts with [null], [needsVersionDowngrade]
    raises a [TypeError], and so does the version block on any path that
    names no version. *)
Theorem needsVersionDowngrade_throws_on_leading_null h b ms rest p :
  repr h b (JObj ms) ->
  flagged (JObj ms) = false ->
  assoc "contents" ms = Some (JArr (JNull :: rest)) ->
  needsVersionDowngrade h (Some b) = Throw TypeError /\
  (versionMatch p = None -> targetVersion h p (Some b) = Throw TypeError).
Proof.
  intros Hr Hf Hc.
  assert (E : needsVersionDowngrade h (Some b) = Throw TypeError).
  { unfold needsVersionDowngrade.
    assert (Ho : is_object b = true) by (inversion Hr; reflexivity).
    assert (Ht : truthy b = true) by (inversion Hr; reflexivity).
    rewrite Ho, Ht. cbn [negb orb].
    rewrite (any_param_repr h b (JObj ms) unsupportedInV1 Hr eq_refl). cbn [bind].
    fold (flagged (JObj ms)). rewrite Hf.
    destruct (get_repr h b (JObj ms) "contents" Hr eq_refl) as (o & -> & Hrep).
    cbn [bind]. pose proof (as_array_repr h o _ Hrep) as Ha.
    cbn [member] in Ha. rewrite Hc in Ha. cbn [elements] in Ha.
    destruct (as_array h o) as [ cs | ]; [ | discriminate Ha ].
    inversion Ha as [ | v0 j0 vs js Hv0 Hvs ]; subst.
    inversion Hv0; subst. reflexivity. }
  split; [ exact E | ].
  intros Hm. unfold targetVersion. rewrite Hm, E. reflexivity.
Qed.

Lemma needsVersionDowngrade_throws_on_leading_null_witness :
  needsVersionDowngrade
    (parse (JObj [("contents", JArr [JNull; JStr "x"])]) []).2
    (Some (parse (JObj [("contents", JArr [JNull; JStr "x"])]) []).1)
  = Throw TypeError.
Proof.
  apply (needsVersionDowngrade_throws_on_leading_null _ _
           [("contents", JArr [JNull; JStr "x"])] [JStr "x"] "/models").
  - apply parse_repr.
  - reflexivity.
  - reflexivity.
Defined.
